(** * The CDI upload server ([pkg/uploadserver/uploadserver.go])

    A shallow embedding of the upload server: the admission check and
    the request handlers as computations in a small state monad, the
    background goroutine and the run loop as a labelled transition
    system whose atomic steps are the mutex-delimited blocks of the Go
    code, the tar extractor for block devices and the content reader. *)

From Stdlib Require Import ZArith String Ascii List Bool Lia PrimFloat.
From Stdlib.Strings Require Import Byte.
From stdpp Require Import base list strings gmap.
Import ListNotations.

Open Scope string_scope.

(* ================================================================= *)
(** ** Errors *)

(** Go [error] values as far as the server tells them apart: [io.EOF],
    plain messages ([errors.New], [fmt.Errorf]), the importer's
    [ValidationSizeError], and [errors.Wrap]/[errors.Wrapf]. *)
Inductive error : Type :=
| EOF
| ErrorString (msg : string)
| ValidationSizeError (msg : string)
| Wrapf (cause : error) (msg : string).

(** [err == io.EOF] *)
Definition isEOF (e : error) : bool :=
  match e with EOF => true | _ => false end.

(** [errors.As(err, &importer.ValidationSizeError{})]: walks the chain
    of wrapped errors. *)
Fixpoint errorsAsValidationSizeError (e : error) : bool :=
  match e with
  | ValidationSizeError _ => true
  | Wrapf cause _ => errorsAsValidationSizeError cause
  | EOF | ErrorString _ => false
  end.

(** [err.Error()] *)
Fixpoint Error (e : error) : string :=
  match e with
  | EOF => "EOF"
  | ErrorString msg => msg
  | ValidationSizeError msg => msg
  | Wrapf cause msg => msg ++ ": " ++ Error cause
  end.

(* ================================================================= *)
(** ** Constants of [net/http] and [archive/tar] *)

Definition MethodPost : string := "POST".
Definition MethodHead : string := "HEAD".

Definition StatusOK : Z := 200.
Definition StatusBadRequest : Z := 400.
Definition StatusUnauthorized : Z := 401.
Definition StatusNotFound : Z := 404.
Definition StatusConflict : Z := 409.
Definition StatusInternalServerError : Z := 500.
Definition StatusServiceUnavailable : Z := 503.

(** [tar.TypeReg = '0'] and [tar.TypeGNUSparse = 'S']. *)
Definition TypeReg : byte := x30.
Definition TypeGNUSparse : byte := x53.

(* ================================================================= *)
(** ** What the file takes from other packages *)

(** The constants of package [common] that the file reads.  Their
    declarations are outside this file, so they are parameters. *)
Class Common : Type := {
  UploadContentTypeHeader : string;
  BlockdeviceClone : string;
  FilesystemCloneContentType : string;
  DiskImageName : string;
  WriteBlockPath : string
}.

(** [cdiv1.DataVolumeContentType], the two values the handlers pass. *)
Inductive DataVolumeContentType : Type :=
| DataVolumeKubeVirt
| DataVolumeArchive.

(* ================================================================= *)
(** ** Readers *)

(** A part of a multipart form. *)
Record Part : Type := {
  FormName : string;
  partData : list byte
}.

(** The [io.ReadCloser] values the file builds: the nil interface, the
    request body, a form part, and [io.NopCloser(snappy.NewReader(s))]. *)
Inductive ReadCloser : Type :=
| NilReadCloser
| BodyReader (data : list byte)
| PartReader (p : Part)
| NopCloserSnappy (inner : ReadCloser).

Definition newSnappyReadCloser (stream : ReadCloser) : ReadCloser :=
  NopCloserSnappy stream.

Section WithCommon.
Context `{Common}.

Definition newContentReader (stream : ReadCloser)
    (contentType : string) : ReadCloser :=
  if String.eqb contentType BlockdeviceClone
  then newSnappyReadCloser stream
  else stream.

End WithCommon.

(** All the bytes a reader yields, for a given snappy decoder (the
    codec is the library's).  [None] is the nil dereference of reading
    from the nil interface. *)
Fixpoint readAll (snappyDecode : list byte -> error + list byte)
    (rc : ReadCloser) : option (error + list byte) :=
  match rc with
  | NilReadCloser => None
  | BodyReader data => Some (inr data)
  | PartReader p => Some (inr (partData p))
  | NopCloserSnappy inner =>
      match readAll snappyDecode inner with
      | None => None
      | Some (inl e) => Some (inl e)
      | Some (inr compressed) => Some (snappyDecode compressed)
      end
  end.

(** Nesting depth of snappy wrappers. *)
Fixpoint snappyDepth (rc : ReadCloser) : nat :=
  match rc with
  | NopCloserSnappy inner => S (snappyDepth inner)
  | _ => 0
  end.

(* ================================================================= *)
(** ** [strings.Contains] *)

Fixpoint HasPrefix (s prefix : string) {struct prefix} : bool :=
  match prefix, s with
  | EmptyString, _ => true
  | String _ _, EmptyString => false
  | String a p', String b s' => Ascii.eqb a b && HasPrefix s' p'
  end.

Fixpoint Contains (s substr : string) : bool :=
  HasPrefix s substr ||
  match s with
  | EmptyString => false
  | String _ s' => Contains s' substr
  end.

(* ================================================================= *)
(** ** The archive extractor for block devices *)

(** A tar header, with the fields [untarToBlockdev] reads. *)
Record Header : Type := {
  Name : string;
  Typeflag : byte;
  Size : Z
}.

(** A [tar.Reader] over a stream: the successive results of [Next]
    with, for each, the bytes [Read] then yields for that entry, and
    the error [Next] gives once the entries are used up ([io.EOF] at
    the end of a complete archive, another error where the stream is
    broken).  A nil header with a nil error is [None]. *)
Record tarReader : Type := {
  tarEntries : list (option Header * list byte);
  tarEnd : error
}.

(** Files by path.  A write through a descriptor opened with
    [O_APPEND] adds at the end; writes themselves are taken to succeed. *)
Definition filesystem : Type := gmap string (list byte).

(** [io.ErrUnexpectedEOF], which is [errors.New("unexpected EOF")]. *)
Definition ErrUnexpectedEOF : error := ErrorString "unexpected EOF".

(** The error on which [Read] of the tar reader ends for an entry:
    [io.EOF] once the [Size] bytes of the header have been read,
    [io.ErrUnexpectedEOF] when the stream holds fewer. *)
Definition entryEnd (size : Z) (payload : list byte) : error :=
  if (Z.of_nat (length payload) <? size)%Z then ErrUnexpectedEOF else EOF.

(** [io.CopyN(dst, src, n)] for a source that yields the bytes [src]
    and then the error [srcEnd]: the bytes copied and the error.
    [io.Copy] over the [io.LimitReader] stops after [n] bytes without
    reading further, and otherwise at the end of the source, whose error
    it returns unless it is [io.EOF]; [CopyN] turns a short copy without
    error into [io.EOF].  The write side is the append to the open
    descriptor, taken to succeed. *)
Definition CopyN (src : list byte) (srcEnd : error) (n : Z)
    : list byte * option error :=
  let copied := take (Z.to_nat n) src in
  let written := Z.of_nat (length copied) in
  let copyErr :=
    if (written <? n)%Z
    then (if isEOF srcEnd then None else Some srcEnd)
    else None in
  if (written =? n)%Z then (copied, None)
  else if (written <? n)%Z then
    match copyErr with
    | None => (copied, Some EOF)
    | Some e => (copied, Some e)
    end
  else (copied, copyErr).

Definition isRegOrSparse (t : byte) : bool :=
  Byte.eqb t TypeReg || Byte.eqb t TypeGNUSparse.

Section Untar.
Context `{Common}.

(** The [for] loop of [untarToBlockdev], by recursion on the entries
    still to come. *)
Fixpoint untarLoop (entries : list (option Header * list byte))
    (last : error) (dest : string) (fs : filesystem)
    : option error * filesystem :=
  match entries with
  | [] => if isEOF last then (None, fs) else (Some last, fs)
  | (None, _) :: rest => untarLoop rest last dest fs
  | (Some header, payload) :: rest =>
      if negb (Contains (Name header) DiskImageName)
      then untarLoop rest last dest fs
      else if isRegOrSparse (Typeflag header) then
        match fs !! dest with
        | None => (Some (ErrorString ("open " ++ dest)), fs)
        | Some old =>
            let '(copied, err) :=
              CopyN payload (entryEnd (Size header) payload) (Size header) in
            let fs' := <[dest := (old ++ copied)%list]> fs in
            match err with
            | Some e => (Some e, fs')
            | None => (None, fs')
            end
        end
      else untarLoop rest last dest fs
  end.

Definition untarToBlockdev (stream : tarReader) (dest : string)
    (fs : filesystem) : option error * filesystem :=
  untarLoop (tarEntries stream) (tarEnd stream) dest fs.

(** An entry the loop passes over: a nil header, a name without the
    marker, or a type other than regular and GNU sparse. *)
Definition passedOver (e : option Header * list byte) : bool :=
  match fst e with
  | None => true
  | Some h => negb (Contains (Name h) DiskImageName)
              || negb (isRegOrSparse (Typeflag h))
  end.

End Untar.

(* ================================================================= *)
(** ** Requests and responses *)

(** [x509.Certificate], with the subject's common name. *)
Record Certificate : Type := {
  SubjectCommonName : string
}.

(** [tls.ConnectionState] *)
Record ConnectionState : Type := {
  PeerCertificates : list Certificate
}.

(** What [r.MultipartReader()] gives for a multipart request: the
    parts [NextPart] returns in order and the error it returns after
    them ([io.EOF] when the form was read to its end). *)
Record multipartReader : Type := {
  formParts : list Part;
  formEnd : error
}.

(** [http.Request]: [TLS] is nil on a plain connection; the headers
    are kept under their canonical keys. *)
Record Request : Type := {
  Method : string;
  TLS : option ConnectionState;
  RequestHeader : list (string * string);
  Body : list byte;
  MultipartReader : error + multipartReader
}.

(** The bytes allowed in a header field name (the token characters
    of [net/textproto]). *)
Definition isLowerLetter (c : ascii) : bool :=
  Nat.leb 97 (nat_of_ascii c) && Nat.leb (nat_of_ascii c) 122.

Definition isUpperLetter (c : ascii) : bool :=
  Nat.leb 65 (nat_of_ascii c) && Nat.leb (nat_of_ascii c) 90.

Definition isDigitChar (c : ascii) : bool :=
  Nat.leb 48 (nat_of_ascii c) && Nat.leb (nat_of_ascii c) 57.

Definition validHeaderFieldByte (c : ascii) : bool :=
  isLowerLetter c || isUpperLetter c || isDigitChar c
  || existsb (Ascii.eqb c) (list_ascii_of_string "!#$%&'*+-.^_`|~").

(** The loop of [canonicalMIMEHeaderKey]: upper case for the first
    letter and for a letter after a dash, lower case for the others. *)
Fixpoint canonicalLetters (upper : bool) (s : string) : string :=
  match s with
  | EmptyString => EmptyString
  | String c rest =>
      let c' :=
        if upper && isLowerLetter c then ascii_of_nat (nat_of_ascii c - 32)
        else if negb upper && isUpperLetter c
        then ascii_of_nat (nat_of_ascii c + 32)
        else c in
      String c' (canonicalLetters (Ascii.eqb c' "-") rest)
  end.

(** [textproto.CanonicalMIMEHeaderKey]: a key with a byte that is not
    allowed in a field name is returned as it is. *)
Definition CanonicalMIMEHeaderKey (s : string) : string :=
  if forallb validHeaderFieldByte (list_ascii_of_string s)
  then canonicalLetters true s
  else s.

(** The first value stored under a key, the empty string when there
    is none. *)
Fixpoint headerValue (h : list (string * string)) (key : string) : string :=
  match h with
  | [] => ""
  | (k, v) :: rest => if String.eqb k key then v else headerValue rest key
  end.

(** [r.Header.Get(key)]: the first value under the canonical form of
    the key, the empty string when there is none. *)
Definition HeaderGet (h : list (string * string)) (key : string) : string :=
  headerValue h (CanonicalMIMEHeaderKey key).

(** [http.ResponseWriter]: the status line is fixed by the first
    [WriteHeader] (or by the first [Write], as 200); later calls of
    [WriteHeader] are dropped by the library.  [headerCalls] keeps every
    call, in order. *)
Record ResponseWriter : Type := {
  headerCalls : list Z;
  statusLine : option Z;
  bodyText : string
}.

Definition newResponseWriter : ResponseWriter :=
  {| headerCalls := []; statusLine := None; bodyText := "" |}.

Definition writeHeader (code : Z) (w : ResponseWriter) : ResponseWriter :=
  {| headerCalls := (headerCalls w ++ [code])%list;
     statusLine := match statusLine w with
                   | None => Some code
                   | Some c => Some c
                   end;
     bodyText := bodyText w |}.

Definition writeString (s : string) (w : ResponseWriter) : ResponseWriter :=
  {| headerCalls := headerCalls w;
     statusLine := match statusLine w with
                   | None => Some StatusOK
                   | Some c => Some c
                   end;
     bodyText := bodyText w ++ s |}.

(** The status the client sees once the handler has returned. *)
Definition responseStatus (w : ResponseWriter) : Z :=
  match statusLine w with
  | None => StatusOK
  | Some c => c
  end.

(** [imageReadCloser] *)
Definition imageReadCloser : Type := Request -> ReadCloser * option error.

Definition bodyReadCloser : imageReadCloser :=
  fun r => (BodyReader (Body r), None).

(** The loop of [formReadCloser] over the parts still to come: stops
    at the error of [NextPart] or at the first part named "file". *)
Fixpoint nextFilePart (parts : list Part) (last : error)
    : ReadCloser * option error :=
  match parts with
  | [] => (NilReadCloser, Some last)
  | filePart :: rest =>
      if String.eqb (FormName filePart) "file"
      then (PartReader filePart, None)
      else nextFilePart rest last
  end.

Definition formReadCloser : imageReadCloser :=
  fun r =>
    match MultipartReader r with
    | inl err => (NilReadCloser, Some err)
    | inr multiReader =>
        nextFilePart (formParts multiReader) (formEnd multiReader)
    end.

(* ================================================================= *)
(** ** The server *)

(** [importer.DataProcessor] after [ProcessDataWithPause], as the
    handler uses it: what [ProcessDataResume] will return and what
    [PreallocationApplied] then reports. *)
Record DataProcessor : Type := {
  ProcessDataResume : option error;
  PreallocationApplied : bool
}.

(** [uploadProcessorFunc] and [uploadProcessorFuncAsync], the two
    package variables through which the handlers reach the importer.
    The arguments are the stream, [dest], [imageSize],
    [filesystemOverhead], [preallocation], the source content type and,
    for the synchronous one, the data volume content type. *)
Class Processors : Type := {
  uploadProcessorFunc :
    ReadCloser -> string -> string -> float -> bool -> string ->
    DataVolumeContentType -> bool * option error;
  uploadProcessorFuncAsync :
    ReadCloser -> string -> string -> float -> bool -> string ->
    DataProcessor * option error
}.

(** [uploadServerApp], without the listener and TLS set-up fields.
    [mutex] counts the calls of [app.mutex.Lock()], [doneChan] the calls
    of [close(app.doneChan)]: the channel is closed when the count is
    positive, and a second close would be a run-time panic. *)
Record uploadServerApp : Type := {
  destination : string;
  clientName : string;
  imageSize : string;
  filesystemOverhead : float;
  preallocation : bool;
  uploading : bool;
  processing : bool;
  done : bool;
  preallocationApplied : bool;
  doneChan : nat;
  mutex : nat
}.

Definition setUploading (b : bool) (a : uploadServerApp) : uploadServerApp :=
  {| destination := destination a; clientName := clientName a;
     imageSize := imageSize a; filesystemOverhead := filesystemOverhead a;
     preallocation := preallocation a;
     uploading := b; processing := processing a; done := done a;
     preallocationApplied := preallocationApplied a;
     doneChan := doneChan a; mutex := mutex a |}.

Definition setProcessing (b : bool) (a : uploadServerApp) : uploadServerApp :=
  {| destination := destination a; clientName := clientName a;
     imageSize := imageSize a; filesystemOverhead := filesystemOverhead a;
     preallocation := preallocation a;
     uploading := uploading a; processing := b; done := done a;
     preallocationApplied := preallocationApplied a;
     doneChan := doneChan a; mutex := mutex a |}.

Definition setDone (b : bool) (a : uploadServerApp) : uploadServerApp :=
  {| destination := destination a; clientName := clientName a;
     imageSize := imageSize a; filesystemOverhead := filesystemOverhead a;
     preallocation := preallocation a;
     uploading := uploading a; processing := processing a; done := b;
     preallocationApplied := preallocationApplied a;
     doneChan := doneChan a; mutex := mutex a |}.

Definition setPreallocationApplied (b : bool) (a : uploadServerApp)
    : uploadServerApp :=
  {| destination := destination a; clientName := clientName a;
     imageSize := imageSize a; filesystemOverhead := filesystemOverhead a;
     preallocation := preallocation a;
     uploading := uploading a; processing := processing a; done := done a;
     preallocationApplied := b;
     doneChan := doneChan a; mutex := mutex a |}.

Definition closeDoneChan (a : uploadServerApp) : uploadServerApp :=
  {| destination := destination a; clientName := clientName a;
     imageSize := imageSize a; filesystemOverhead := filesystemOverhead a;
     preallocation := preallocation a;
     uploading := uploading a; processing := processing a; done := done a;
     preallocationApplied := preallocationApplied a;
     doneChan := S (doneChan a); mutex := mutex a |}.

Definition lockMutex (a : uploadServerApp) : uploadServerApp :=
  {| destination := destination a; clientName := clientName a;
     imageSize := imageSize a; filesystemOverhead := filesystemOverhead a;
     preallocation := preallocation a;
     uploading := uploading a; processing := processing a; done := done a;
     preallocationApplied := preallocationApplied a;
     doneChan := doneChan a; mutex := S (mutex a) |}.

(** [NewUploadServer]: the flags start false, the channels open. *)
Definition NewUploadServer (dest name size : string) (overhead : float)
    (prealloc : bool) : uploadServerApp :=
  {| destination := dest; clientName := name; imageSize := size;
     filesystemOverhead := overhead; preallocation := prealloc;
     uploading := false; processing := false; done := false;
     preallocationApplied := false; doneChan := 0; mutex := 0 |}.

(** The session fields of the server. *)
Definition session (a : uploadServerApp) : bool * bool * bool * bool :=
  (uploading a, processing a, done a, preallocationApplied a).

(* ================================================================= *)
(** ** The running process *)

(** The goroutine started by [uploadHandlerAsync], by the point it has
    reached: before [ProcessDataResume]; blocked in [app.errChan <- err];
    before the block that takes the mutex and records the outcome;
    before the deferred [close(app.doneChan)]; returned. *)
Inductive goroutine : Type :=
| GoResume (processor : DataProcessor)
| GoSendErr (processor : DataProcessor) (err : error)
| GoRecord (processor : DataProcessor)
| GoCloseDone
| GoExited.

(** [Run], once both listeners are up: waiting in its [select], or
    returned with the error it received ([None] after [doneChan]). *)
Inductive runLoop : Type :=
| Selecting
| Returned (err : option error).

Inductive route : Type :=
| SyncUploadPath
| AsyncUploadPath
| ArchiveUploadPath
| SyncUploadFormPath
| AsyncUploadFormPath.

(** A handler that passed the admission check and has not returned. *)
Record admittedHandler : Type := {
  handlerRoute : route;
  handlerRequest : Request;
  handlerWriter : ResponseWriter
}.

(** The process: the server value, the goroutines started so far, the
    run loop, the streams handed to the processor functions, the
    handlers in flight and the responses sent, and two counters (requests
    admitted, attempts whose processor function returned an error). *)
Record system : Type := {
  app : uploadServerApp;
  goroutines : list goroutine;
  run : runLoop;
  processorCalls : list ReadCloser;
  handlers : list admittedHandler;
  responses : list ResponseWriter;
  admitted : nat;
  failed : nat
}.

Definition withApp (a : uploadServerApp) (s : system) : system :=
  {| app := a; goroutines := goroutines s; run := run s;
     processorCalls := processorCalls s; handlers := handlers s;
     responses := responses s; admitted := admitted s; failed := failed s |}.

Definition withGoroutines (gs : list goroutine) (s : system) : system :=
  {| app := app s; goroutines := gs; run := run s;
     processorCalls := processorCalls s; handlers := handlers s;
     responses := responses s; admitted := admitted s; failed := failed s |}.

Definition withRun (r : runLoop) (s : system) : system :=
  {| app := app s; goroutines := goroutines s; run := r;
     processorCalls := processorCalls s; handlers := handlers s;
     responses := responses s; admitted := admitted s; failed := failed s |}.

Definition withProcessorCalls (cs : list ReadCloser) (s : system) : system :=
  {| app := app s; goroutines := goroutines s; run := run s;
     processorCalls := cs; handlers := handlers s;
     responses := responses s; admitted := admitted s; failed := failed s |}.

Definition withHandlers (hs : list admittedHandler) (s : system) : system :=
  {| app := app s; goroutines := goroutines s; run := run s;
     processorCalls := processorCalls s; handlers := hs;
     responses := responses s; admitted := admitted s; failed := failed s |}.

Definition respond (w : ResponseWriter) (s : system) : system :=
  {| app := app s; goroutines := goroutines s; run := run s;
     processorCalls := processorCalls s; handlers := handlers s;
     responses := (responses s ++ [w])%list;
     admitted := admitted s; failed := failed s |}.

Definition countAdmitted (s : system) : system :=
  {| app := app s; goroutines := goroutines s; run := run s;
     processorCalls := processorCalls s; handlers := handlers s;
     responses := responses s; admitted := S (admitted s);
     failed := failed s |}.

Definition countFailed (s : system) : system :=
  {| app := app s; goroutines := goroutines s; run := run s;
     processorCalls := processorCalls s; handlers := handlers s;
     responses := responses s; admitted := admitted s;
     failed := S (failed s) |}.

(** The process right after [NewUploadServer] and the start of [Run]. *)
Definition startSystem (a : uploadServerApp) : system :=
  {| app := a; goroutines := []; run := Selecting; processorCalls := [];
     handlers := []; responses := []; admitted := 0; failed := 0 |}.

(* ================================================================= *)
(** ** Handler code as state-passing computations *)

(** A handler runs on the process and on its own response writer. *)
Definition M (A : Type) : Type :=
  system * ResponseWriter -> A * (system * ResponseWriter).

Definition ret {A : Type} (x : A) : M A := fun st => (x, st).

Definition bind {A B : Type} (c : M A) (k : A -> M B) : M B :=
  fun st => let '(x, st') := c st in k x st'.

Declare Scope handler_scope.
Delimit Scope handler_scope with handler.
Notation "'do' x <- c ; k" := (bind c (fun x => k))
  (at level 10, x name, c at level 100, k at level 200) : handler_scope.
Notation "c ;; k" := (bind c (fun _ => k))
  (at level 100, k at level 200, right associativity) : handler_scope.

Definition getApp : M uploadServerApp :=
  fun st => (app (fst st), st).

Definition modifyApp (f : uploadServerApp -> uploadServerApp) : M unit :=
  fun st => (tt, (withApp (f (app (fst st))) (fst st), snd st)).

Definition WriteHeader (code : Z) : M unit :=
  fun st => (tt, (fst st, writeHeader code (snd st))).

Definition Fprintf (text : string) : M unit :=
  fun st => (tt, (fst st, writeString text (snd st))).

(** [app.mutex.Lock()]; the matching [Unlock] ends the block. *)
Definition Lock : M unit := modifyApp lockMutex.

(** The [go] statement. *)
Definition go (g : goroutine) : M unit :=
  fun st =>
    (tt, (withGoroutines (goroutines (fst st) ++ [g])%list (fst st), snd st)).

(** Notes the stream a processor function is called with. *)
Definition noteProcessorCall (stream : ReadCloser) : M unit :=
  fun st =>
    (tt, (withProcessorCalls (processorCalls (fst st) ++ [stream])%list
            (fst st), snd st)).

(** The loop over [r.TLS.PeerCertificates]. *)
Definition peerFound (certs : list Certificate) (name : string) : bool :=
  existsb (fun cert => String.eqb (SubjectCommonName cert) name) certs.

(** The peer check of [validateShouldHandleRequest]: a plain
    connection passes, a TLS one needs a certificate with the name. *)
Definition peerAccepted (r : Request) (name : string) : bool :=
  match TLS r with
  | Some state => peerFound (PeerCertificates state) name
  | None => true
  end.

Section Handlers.
Context `{Common} `{Processors}.
Local Open Scope handler_scope.

(** The block of [validateShouldHandleRequest] that runs with the
    mutex held. *)
Definition phaseCheck : M bool :=
  Lock ;;
  do a <- getApp ;
  if uploading a || processing a then
    WriteHeader StatusServiceUnavailable ;; ret false
  else if done a then
    WriteHeader StatusConflict ;; ret false
  else
    modifyApp (setUploading true) ;; ret true.

Definition validateShouldHandleRequest (r : Request) : M bool :=
  if negb (String.eqb (Method r) MethodPost) then
    WriteHeader StatusNotFound ;; ret false
  else
    do a <- getApp ;
    if negb (peerAccepted r (clientName a)) then
      WriteHeader StatusUnauthorized ;; ret false
    else phaseCheck.

(** [processUpload] after the admission check; the result is the
    error of the processor function, for the counters of the process. *)
Definition processUploadAdmitted (irc : imageReadCloser) (r : Request)
    (dvContentType : DataVolumeContentType) : M (option error) :=
  let cdiContentType := HeaderGet (RequestHeader r) UploadContentTypeHeader in
  let '(readCloser, ircErr) := irc r in
  match ircErr with
  | Some _ => WriteHeader StatusBadRequest
  | None => ret tt
  end ;;
  do a <- getApp ;
  noteProcessorCall readCloser ;;
  let '(applied, err) :=
    uploadProcessorFunc readCloser (destination a) (imageSize a)
      (filesystemOverhead a) (preallocation a) cdiContentType dvContentType in
  modifyApp (setPreallocationApplied applied) ;;
  Lock ;;
  match err with
  | Some _ =>
      WriteHeader StatusInternalServerError ;;
      modifyApp (setUploading false) ;;
      ret err
  | None =>
      modifyApp (setUploading false) ;;
      modifyApp (setDone true) ;;
      modifyApp closeDoneChan ;;
      ret None
  end.

Definition processUpload (irc : imageReadCloser) (r : Request)
    (dvContentType : DataVolumeContentType) : M unit :=
  do ok <- validateShouldHandleRequest r ;
  if negb ok then ret tt
  else processUploadAdmitted irc r dvContentType ;; ret tt.

Definition uploadHandler (irc : imageReadCloser) (r : Request) : M unit :=
  processUpload irc r DataVolumeKubeVirt.

Definition uploadArchiveHandler (irc : imageReadCloser) (r : Request)
    : M unit :=
  processUpload irc r DataVolumeArchive.

(** [uploadHandlerAsync] after the admission check, up to its return. *)
Definition uploadHandlerAsyncAdmitted (irc : imageReadCloser) (r : Request)
    : M (option error) :=
  let cdiContentType := HeaderGet (RequestHeader r) UploadContentTypeHeader in
  let '(readCloser, ircErr) := irc r in
  match ircErr with
  | Some _ => WriteHeader StatusBadRequest
  | None => ret tt
  end ;;
  do a <- getApp ;
  noteProcessorCall readCloser ;;
  let '(processor, err) :=
    uploadProcessorFuncAsync readCloser (destination a) (imageSize a)
      (filesystemOverhead a) (preallocation a) cdiContentType in
  Lock ;;
  match err with
  | Some e =>
      (if errorsAsValidationSizeError e
       then WriteHeader StatusBadRequest
       else WriteHeader StatusInternalServerError) ;;
      Fprintf ("Saving stream failed: " ++ Error e) ;;
      modifyApp (setUploading false) ;;
      ret err
  | None =>
      modifyApp (setUploading false) ;;
      modifyApp (setProcessing true) ;;
      go (GoResume processor) ;;
      ret None
  end.

Definition uploadHandlerAsync (irc : imageReadCloser) (r : Request)
    : M unit :=
  if String.eqb (Method r) MethodHead then WriteHeader StatusOK
  else
    do ok <- validateShouldHandleRequest r ;
    if negb ok then ret tt
    else uploadHandlerAsyncAdmitted irc r ;; ret tt.

(** The registrations of [NewUploadServer]: the handler of each class
    of paths. *)
Definition ServeHTTP (rt : route) (r : Request) : M unit :=
  match rt with
  | SyncUploadPath => uploadHandler bodyReadCloser r
  | AsyncUploadPath => uploadHandlerAsync bodyReadCloser r
  | ArchiveUploadPath => uploadArchiveHandler bodyReadCloser r
  | SyncUploadFormPath => uploadHandler formReadCloser r
  | AsyncUploadFormPath => uploadHandlerAsync formReadCloser r
  end.

End Handlers.

(* ================================================================= *)
(** ** Interleaving: the steps of the process *)

(** One step of the background goroutine.  The send on the unbuffered
    [errChan] goes through only while [Run] is in its [select]; the
    block from [app.mutex.Lock()] to the deferred unlock is one step,
    the deferred [close(app.doneChan)] the next. *)
Definition goStep (g : goroutine) (s : system) : goroutine * system :=
  match g with
  | GoResume processor =>
      match ProcessDataResume processor with
      | Some err => (GoSendErr processor err, s)
      | None => (GoRecord processor, s)
      end
  | GoSendErr processor err =>
      match run s with
      | Selecting => (GoRecord processor, withRun (Returned (Some err)) s)
      | Returned _ => (GoSendErr processor err, s)
      end
  | GoRecord processor =>
      (GoCloseDone,
       withApp
         (setPreallocationApplied (PreallocationApplied processor)
            (setDone true (setProcessing false (lockMutex (app s))))) s)
  | GoCloseDone => (GoExited, withApp (closeDoneChan (app s)) s)
  | GoExited => (GoExited, s)
  end.

(** What can happen next: a request reaches its handler, which runs
    through the admission check; an admitted handler runs on to its
    return; a background goroutine takes a step; [Run] takes the
    [doneChan] case of its [select]; a listener sends its error.

    Between the admission check and its last block a handler touches the
    server only to read fields that never change and, in
    [processUpload], to assign [preallocationApplied], which the
    handlers do not read; so the part of a handler after the admission check is
    taken as one step, at the time of its block under the mutex. *)
Inductive event : Type :=
| Arrive (rt : route) (r : Request)
| Proceed (i : nat)
| Background (i : nat)
| SelectDone
| ListenerError (err : error).

Section Steps.
Context `{Common} `{Processors}.
Local Open Scope handler_scope.

(** A handler up to the return of the admission check: [true] when
    the handler goes on. *)
Definition handlerEntry (rt : route) (r : Request) : M bool :=
  match rt with
  | AsyncUploadPath | AsyncUploadFormPath =>
      if String.eqb (Method r) MethodHead
      then WriteHeader StatusOK ;; ret false
      else validateShouldHandleRequest r
  | SyncUploadPath | ArchiveUploadPath | SyncUploadFormPath =>
      validateShouldHandleRequest r
  end.

(** The same handler from there to its return. *)
Definition handlerRest (rt : route) (r : Request) : M (option error) :=
  match rt with
  | SyncUploadPath => processUploadAdmitted bodyReadCloser r DataVolumeKubeVirt
  | AsyncUploadPath => uploadHandlerAsyncAdmitted bodyReadCloser r
  | ArchiveUploadPath => processUploadAdmitted bodyReadCloser r DataVolumeArchive
  | SyncUploadFormPath => processUploadAdmitted formReadCloser r DataVolumeKubeVirt
  | AsyncUploadFormPath => uploadHandlerAsyncAdmitted formReadCloser r
  end.

Definition step (ev : event) (s : system) : system :=
  match ev with
  | Arrive rt r =>
      let '(ok, (s', w)) := handlerEntry rt r (s, newResponseWriter) in
      if ok
      then countAdmitted
             (withHandlers
                (handlers s' ++
                 [{| handlerRoute := rt; handlerRequest := r;
                     handlerWriter := w |}])%list s')
      else respond w s'
  | Proceed i =>
      match handlers s !! i with
      | None => s
      | Some h =>
          let '(err, (s', w)) :=
            handlerRest (handlerRoute h) (handlerRequest h)
              (withHandlers (delete i (handlers s)) s, handlerWriter h) in
          respond w (match err with
                     | Some _ => countFailed s'
                     | None => s'
                     end)
      end
  | Background i =>
      match goroutines s !! i with
      | None => s
      | Some g =>
          let '(g', s') := goStep g s in
          withGoroutines (<[i := g']> (goroutines s')) s'
      end
  | SelectDone =>
      match run s with
      | Selecting =>
          if Nat.ltb 0 (doneChan (app s)) then withRun (Returned None) s
          else s
      | Returned _ => s
      end
  | ListenerError err =>
      match run s with
      | Selecting => withRun (Returned (Some err)) s
      | Returned _ => s
      end
  end.

(** The process after a sequence of events. *)
Definition exec (evs : list event) (s : system) : system :=
  fold_left (fun s ev => step ev s) evs s.

(** A request served with no other event in between. *)
Definition serve (rt : route) (r : Request) (s : system)
    : system * ResponseWriter :=
  snd (ServeHTTP rt r (s, newResponseWriter)).

End Steps.

(** The states the process can reach from a fresh server. *)
Definition reachable `{Common} `{Processors} (s : system) : Prop :=
  exists (dest name size : string) (overhead : float) (prealloc : bool)
         (evs : list event),
    s = exec evs
          (startSystem (NewUploadServer dest name size overhead prealloc)).

(* ================================================================= *)
(** ** The session as the specification names it *)

Inductive phase : Type :=
| Idle
| Uploading
| Processing
| Done.

(** The phase the three flags stand for, in the order the admission
    check reads them. *)
Definition phaseOf (a : uploadServerApp) : phase :=
  if uploading a then Uploading
  else if processing a then Processing
  else if done a then Done
  else Idle.

Definition b2n (b : bool) : nat := if b then 1 else 0.

(** Goroutines that have not yet recorded the outcome. *)
Definition resuming (g : goroutine) : bool :=
  match g with
  | GoResume _ | GoSendErr _ _ | GoRecord _ => true
  | GoCloseDone | GoExited => false
  end.

(** Goroutines with the deferred close still to run. *)
Definition closing (g : goroutine) : bool :=
  match g with
  | GoCloseDone => true
  | _ => false
  end.

Fixpoint countIf {A : Type} (p : A -> bool) (l : list A) : nat :=
  match l with
  | [] => 0
  | x :: l' => b2n (p x) + countIf p l'
  end.

(** The invariant of the process: the flags count the handlers in
    flight and the goroutines at work, at most one flag is set, the
    done channel is closed at most once and only under [done], and the
    counters agree with the flags. *)
Record invariant (s : system) : Prop := {
  inv_handlers : length (handlers s) = b2n (uploading (app s));
  inv_resuming : countIf resuming (goroutines s) = b2n (processing (app s));
  inv_closing :
    countIf closing (goroutines s) + doneChan (app s) = b2n (done (app s));
  inv_exclusive :
    b2n (uploading (app s)) + b2n (processing (app s)) + b2n (done (app s))
    <= 1;
  inv_counters :
    admitted s =
    failed s + b2n (uploading (app s)) + b2n (processing (app s))
    + b2n (done (app s))
}.

(** For a goroutine replaced at index [i] (hypothesis [Hi]) by [y]:
    how the two counts change, from the lemma on [countIf] after an
    update. *)
Ltac count_goroutine lemma Hi y :=
  pose proof (lemma _ resuming _ _ _ y Hi);
  pose proof (lemma _ closing _ _ _ y Hi).

(* ================================================================= *)
(** ** Sample values *)

(** Values for the constants of package [common]. *)
Definition sampleCommon : Common :=
  {| UploadContentTypeHeader := "x-cdi-content-type";
     BlockdeviceClone := "blockdevice-clone";
     FilesystemCloneContentType := "filesystem-clone";
     DiskImageName := "disk.img";
     WriteBlockPath := "/dev/cdi-block-volume" |}.

Definition pausedProcessor (resume : option error) : DataProcessor :=
  {| ProcessDataResume := resume; PreallocationApplied := true |}.

(** Processor functions that return the given errors; the processor
    of the asynchronous one fails in [ProcessDataResume] with [resume]. *)
Definition processorsReturning (syncErr asyncErr resume : option error)
    : Processors :=
  {| uploadProcessorFunc := fun _ _ _ _ _ _ _ => (false, syncErr);
     uploadProcessorFuncAsync :=
       fun _ _ _ _ _ _ => (pausedProcessor resume, asyncErr) |}.

Definition succeedingProcessors : Processors :=
  processorsReturning None None None.

Definition failingProcessors : Processors :=
  processorsReturning (Some (ErrorString "no space left on device"))
    (Some (ErrorString "no space left on device")) None.

Definition sizeErrorProcessors : Processors :=
  processorsReturning (Some (ValidationSizeError "image larger than volume"))
    (Some (ValidationSizeError "image larger than volume")) None.

Definition resumeFailingProcessors : Processors :=
  processorsReturning None None (Some (ErrorString "unexpected EOF")).

Definition sampleServer : uploadServerApp :=
  NewUploadServer "/dev/cdi-block-volume" "client-A" "1Gi" 0.5%float false.

Definition plainPost : Request :=
  {| Method := "POST"; TLS := None; RequestHeader := [];
     Body := [x41; x42]; MultipartReader := inl (ErrorString "not multipart") |}.

Definition plainHead : Request :=
  {| Method := "HEAD"; TLS := None; RequestHeader := [];
     Body := []; MultipartReader := inl (ErrorString "not multipart") |}.

(** A POST over TLS from a peer whose only certificate names
    "client-B". *)
Definition strangerPost : Request :=
  {| Method := "POST";
     TLS := Some {| PeerCertificates :=
                      [{| SubjectCommonName := "client-B" |}] |};
     RequestHeader := [];
     Body := [x41; x42]; MultipartReader := inl (ErrorString "not multipart") |}.

(** The same peer asking with GET. *)
Definition strangerGet : Request :=
  {| Method := "GET";
     TLS := Some {| PeerCertificates :=
                      [{| SubjectCommonName := "client-B" |}] |};
     RequestHeader := [];
     Body := []; MultipartReader := inl (ErrorString "not multipart") |}.

(** A multipart POST whose only part is the field "note". *)
Definition formWithoutFile : Request :=
  {| Method := "POST"; TLS := None; RequestHeader := [];
     Body := [];
     MultipartReader :=
       inr {| formParts := [{| FormName := "note"; partData := [x68; x69] |}];
              formEnd := EOF |} |}.

(** The archive [metadata.json; disk.img (3 bytes); disk.img.bak (2
    bytes)]. *)
Definition sampleArchive : tarReader :=
  {| tarEntries :=
       [ (Some {| Name := "metadata.json"; Typeflag := TypeReg; Size := 2 |},
          [x7b; x7d]);
         (Some {| Name := "disk.img"; Typeflag := TypeReg; Size := 3 |},
          [x01; x02; x03]);
         (Some {| Name := "disk.img.bak"; Typeflag := TypeReg; Size := 2 |},
          [x09; x09]) ];
     tarEnd := EOF |}.

Definition sampleDisk : filesystem :=
  <["/dev/cdi-block-volume" := [x00]]> ∅.

(** A synchronous upload that fails, then the same request again. *)
Definition retryAfterFailure : system :=
  @exec sampleCommon failingProcessors
    [Arrive SyncUploadPath plainPost; Proceed 0;
     Arrive SyncUploadPath plainPost]
    (startSystem sampleServer).

(** The process after a synchronous upload that failed. *)
Definition afterFailedUpload : system :=
  @exec sampleCommon failingProcessors
    [Arrive SyncUploadPath plainPost; Proceed 0]
    (startSystem sampleServer).

(** The process after a synchronous upload that succeeded. *)
Definition afterUpload : system :=
  @exec sampleCommon succeedingProcessors
    [Arrive SyncUploadPath plainPost; Proceed 0]
    (startSystem sampleServer).

(** The process after an asynchronous upload was accepted, with the
    background goroutine about to resume the processor. *)
Definition afterAsyncAccepted : system :=
  @exec sampleCommon resumeFailingProcessors
    [Arrive AsyncUploadPath plainPost; Proceed 0]
    (startSystem sampleServer).

(* ================================================================= *)
(** ** The processor functions of the file *)

(** What [newUploadStreamProcessor], [newAsyncUploadStreamProcessor]
    and [filesystemCloneProcessor] take from other packages: two more
    constants of [common]; the importer run to its end on a data source
    ([NewUploadDataSource], [NewDataProcessor], [ProcessData],
    [PreallocationApplied]) and run to its pause
    ([NewAsyncUploadDataSource], [NewDataProcessor],
    [ProcessDataWithPause]); [util.UnArchiveTar]; and [tar.NewReader]
    over a stream.  The arguments of the two importer runs are the
    stream, (the data volume content type,) [dest], the data directory,
    the scratch directory, [imageSize], [filesystemOverhead] and
    [preallocation]. *)
Class Importer : Type := {
  ImporterVolumePath : string;
  ScratchDataDir : string;
  ProcessData :
    ReadCloser -> DataVolumeContentType -> string -> string -> string ->
    string -> float -> bool -> filesystem ->
    (bool * option error) * filesystem;
  ProcessDataWithPause :
    ReadCloser -> string -> string -> string -> string -> float -> bool ->
    filesystem -> (DataProcessor * option error) * filesystem;
  UnArchiveTar : ReadCloser -> string -> filesystem ->
                 option error * filesystem;
  tarNewReader : ReadCloser -> tarReader
}.

Section Adapters.
Context `{Common} `{Importer}.

(** The processor is the nil pointer when the source is a filesystem
    clone. *)
Definition newAsyncUploadStreamProcessor (stream : ReadCloser)
    (dest imageSize : string) (filesystemOverhead : float)
    (preallocation : bool) (sourceContentType : string) (fs : filesystem)
    : (option DataProcessor * option error) * filesystem :=
  if String.eqb sourceContentType FilesystemCloneContentType then
    ((None, Some (ErrorString "async filesystem clone not supported")), fs)
  else
    let '((processor, err), fs') :=
      ProcessDataWithPause (newContentReader stream sourceContentType)
        dest ImporterVolumePath ScratchDataDir imageSize filesystemOverhead
        preallocation fs in
    ((Some processor, err), fs').

(** Clone file system to block device or file system. *)
Definition filesystemCloneProcessor (stream : ReadCloser) (dest : string)
    (fs : filesystem) : option error * filesystem :=
  if String.eqb dest WriteBlockPath then
    match untarToBlockdev (tarNewReader (newSnappyReadCloser stream))
            dest fs with
    | (Some err, fs') =>
        (Some (Wrapf err ("error unarchiving to " ++ dest)), fs')
    | (None, fs') => (None, fs')
    end
  else
    let destDir := ImporterVolumePath in
    match UnArchiveTar (newSnappyReadCloser stream) destDir fs with
    | (Some err, fs') =>
        (Some (Wrapf err ("error unarchiving to " ++ destDir)), fs')
    | (None, fs') => (None, fs')
    end.

Definition newUploadStreamProcessor (stream : ReadCloser)
    (dest imageSize : string) (filesystemOverhead : float)
    (preallocation : bool) (sourceContentType : string)
    (dvContentType : DataVolumeContentType) (fs : filesystem)
    : (bool * option error) * filesystem :=
  if String.eqb sourceContentType FilesystemCloneContentType then
    let '(err, fs') := filesystemCloneProcessor stream dest fs in
    ((false, err), fs')
  else
    ProcessData (newContentReader stream sourceContentType) dvContentType
      dest ImporterVolumePath ScratchDataDir imageSize filesystemOverhead
      preallocation fs.

(** Stands for the nil processor where a value is needed; the handler
    does not look at the processor when the error is not nil. *)
Definition nilDataProcessor : DataProcessor :=
  {| ProcessDataResume := None; PreallocationApplied := false |}.

(** The two package variables with their initial values, for the
    files as they are when the request is served. *)
Definition defaultProcessors (fs : filesystem) : Processors :=
  {| uploadProcessorFunc :=
       fun stream dest size overhead prealloc sourceType dvType =>
         fst (newUploadStreamProcessor stream dest size overhead prealloc
                sourceType dvType fs);
     uploadProcessorFuncAsync :=
       fun stream dest size overhead prealloc sourceType =>
         let '(processor, err) :=
           fst (newAsyncUploadStreamProcessor stream dest size overhead
                  prealloc sourceType fs) in
         (match processor with
          | Some p => p
          | None => nilDataProcessor
          end, err) |}.

End Adapters.

(* ================================================================= *)
(** ** The upload listener: TLS material and the choice of [Serve] *)

(** [cryptowatch.CryptoConfig] *)
Record CryptoConfig : Type := {
  CipherSuites : list Z;
  MinVersion : Z
}.

(** The fields of [uploadServerApp] that set up the listener. *)
Record transport : Type := {
  tlsKey : string;
  tlsCert : string;
  clientCert : string;
  cryptoConfig : CryptoConfig;
  keyFile : string;
  certFile : string
}.

(** [NewUploadServer] leaves [keyFile] and [certFile] empty. *)
Definition newTransport (key cert client : string) (crypto : CryptoConfig)
    : transport :=
  {| tlsKey := key; tlsCert := cert; clientCert := client;
     cryptoConfig := crypto; keyFile := ""; certFile := "" |}.

Inductive ClientAuthType : Type :=
| NoClientCert
| RequireAndVerifyClientCert.

(** [tls.Config], with the PEM text of the pool in [ClientCAs]. *)
Record tlsConfig : Type := {
  configCipherSuites : list Z;
  ClientCAs : string;
  ClientAuth : ClientAuthType;
  configMinVersion : Z
}.

(** [http.Server], with the field the file sets besides the handler
    and the header timeout. *)
Record httpServer : Type := {
  TLSConfig : option tlsConfig
}.

(** The operating system and the libraries under [createUploadServer]:
    [os.MkdirTemp] gives a directory or an error; [os.WriteFile] fails
    with [writeFileError] or stores the bytes, and a write that fails
    has, by [writeFileWritten], either not opened the file or created
    and truncated it and written that many bytes; [filepath.Join];
    [AppendCertsFromPEM] says whether a certificate was found. *)
Class Platform : Type := {
  MkdirTemp : string -> string -> filesystem -> error + string;
  writeFileError : string -> filesystem -> option error;
  writeFileWritten : string -> list byte -> filesystem -> option nat;
  filepathJoin : string -> string -> string;
  AppendCertsFromPEM : string -> bool
}.

(** How [createUploadServer] ends: with a server, with an error, or in
    [klog.Fatalf]. *)
Inductive created : Type :=
| Created (server : httpServer)
| CreateFailed (err : error)
| FatalExit.

(** What the listener goroutine of [Run] calls. *)
Inductive serving : Type :=
| ServeTLS (cert key : string)
| Serve.

Section Transport.
Context `{Platform}.

Definition WriteFile (name : string) (data : list byte) (fs : filesystem)
    : option error * filesystem :=
  match writeFileError name fs with
  | Some err =>
      (Some err,
       match writeFileWritten name data fs with
       | None => fs
       | Some written => <[name := take written data]> fs
       end)
  | None => (None, <[name := data]> fs)
  end.

(** The first [if] of [createUploadServer]: the error, if any, with
    the fields and the files as they then are. *)
Definition writeTLSMaterial (t : transport) (fs : filesystem)
    : option error * transport * filesystem :=
  if negb (String.eqb (tlsKey t) "") && negb (String.eqb (tlsCert t) "")
  then
    match MkdirTemp "" "uploadserver-tls" fs with
    | inl err => (Some (Wrapf err "Error creating cert dir"), t, fs)
    | inr certDir =>
        let t' :=
          {| tlsKey := tlsKey t; tlsCert := tlsCert t;
             clientCert := clientCert t; cryptoConfig := cryptoConfig t;
             keyFile := filepathJoin certDir "tls.key";
             certFile := filepathJoin certDir "tls.crt" |} in
        match WriteFile (keyFile t') (list_byte_of_string (tlsKey t')) fs with
        | (Some err, fs1) =>
            (Some (Wrapf err "Error creating key file"), t', fs1)
        | (None, fs1) =>
            match WriteFile (certFile t')
                    (list_byte_of_string (tlsCert t')) fs1 with
            | (Some err, fs2) =>
                (Some (Wrapf err "Error creating cert file"), t', fs2)
            | (None, fs2) => (None, t', fs2)
            end
        end
    end
  else (None, t, fs).

Definition createUploadServer (t : transport) (fs : filesystem)
    : created * transport * filesystem :=
  let '(err, t', fs') := writeTLSMaterial t fs in
  match err with
  | Some e => (CreateFailed e, t', fs')
  | None =>
      if negb (String.eqb (clientCert t') "") then
        if AppendCertsFromPEM (clientCert t') then
          (Created
             {| TLSConfig :=
                  Some {| configCipherSuites :=
                            CipherSuites (cryptoConfig t');
                          ClientCAs := clientCert t';
                          ClientAuth := RequireAndVerifyClientCert;
                          configMinVersion :=
                            MinVersion (cryptoConfig t') |} |},
           t', fs')
        else (FatalExit, t', fs')
      else (Created {| TLSConfig := None |}, t', fs')
  end.

End Transport.

(** The choice of the listener goroutine in [Run]. *)
Definition listenerServe (t : transport) : serving :=
  if negb (String.eqb (keyFile t) "") && negb (String.eqb (certFile t) "")
  then ServeTLS (certFile t) (keyFile t)
  else Serve.

(* ================================================================= *)
(** ** More sample values *)

(** An importer that succeeds and leaves the files as they are, and
    a tar reader that finds [sampleArchive] in every stream. *)
Definition sampleImporter : Importer :=
  {| ImporterVolumePath := "/data";
     ScratchDataDir := "/scratch";
     ProcessData := fun _ _ _ _ _ _ _ _ fs => ((false, None), fs);
     ProcessDataWithPause :=
       fun _ _ _ _ _ _ _ fs => ((pausedProcessor None, None), fs);
     UnArchiveTar := fun _ _ fs => (None, fs);
     tarNewReader := fun _ => sampleArchive |}.

Definition samplePlatform : Platform :=
  {| MkdirTemp := fun _ _ _ => inr "/tmp/uploadserver-tls1";
     writeFileError := fun _ _ => None;
     writeFileWritten := fun _ _ _ => None;
     filepathJoin := fun dir name => dir ++ "/" ++ name;
     AppendCertsFromPEM := fun _ => true |}.

(** A platform on which the write of the certificate file fails
    after two bytes. *)
Definition readOnlyCertPlatform : Platform :=
  {| MkdirTemp := fun _ _ _ => inr "/tmp/uploadserver-tls1";
     writeFileError :=
       fun name _ =>
         if String.eqb name "/tmp/uploadserver-tls1/tls.crt"
         then Some (ErrorString "no space left on device") else None;
     writeFileWritten := fun _ _ _ => Some 2;
     filepathJoin := fun dir name => dir ++ "/" ++ name;
     AppendCertsFromPEM := fun _ => true |}.

Definition sampleCrypto : CryptoConfig :=
  {| CipherSuites := [4865%Z]; MinVersion := 771%Z |}.

Definition sampleTransport : transport :=
  newTransport "KEY" "CERT" "CA" sampleCrypto.

(** A client CA bundle but no server key. *)
Definition clientOnlyTransport : transport :=
  newTransport "" "" "CA" sampleCrypto.

(** A POST that announces a filesystem clone, the header under its
    canonical key. *)
Definition filesystemClonePost : Request :=
  {| Method := "POST"; TLS := None;
     RequestHeader := [("X-Cdi-Content-Type", "filesystem-clone")];
     Body := [x41; x42]; MultipartReader := inl (ErrorString "not multipart") |}.

(** A multipart POST with the fields "note", "file", "file". *)
Definition formWithTwoFiles : Request :=
  {| Method := "POST"; TLS := None; RequestHeader := [];
     Body := [];
     MultipartReader :=
       inr {| formParts :=
                [{| FormName := "note"; partData := [x68; x69] |};
                 {| FormName := "file"; partData := [x01] |};
                 {| FormName := "file"; partData := [x02] |}];
              formEnd := EOF |} |}.

(** An archive whose "disk.img" announces 5 bytes and holds 2. *)
Definition truncatedArchive : tarReader :=
  {| tarEntries :=
       [ (Some {| Name := "disk.img"; Typeflag := TypeReg; Size := 5 |},
          [x01; x02]) ];
     tarEnd := ErrorString "unexpected EOF" |}.

(** An archive without a disk image. *)
Definition archiveWithoutImage : tarReader :=
  {| tarEntries :=
       [ (Some {| Name := "metadata.json"; Typeflag := TypeReg; Size := 2 |},
          [x7b; x7d]);
         (None, []) ];
     tarEnd := EOF |}.

(** The process after an asynchronous upload was accepted and a
    listener failed, with the resume about to fail. *)
Definition afterListenerFailed : system :=
  @exec sampleCommon resumeFailingProcessors
    [Arrive AsyncUploadPath plainPost; Proceed 0;
     ListenerError (ErrorString "accept: closed"); Background 0]
    (startSystem sampleServer).

(* ================================================================= *)
(** * Properties *)

(** ** Strings *)

Lemma HasPrefix_correct (s p : string) :
  HasPrefix s p = true <-> exists rest, s = p ++ rest.
Proof.
  revert s. induction p as [|a p IH]; intros s; simpl.
  - split; [intros _; exists s; reflexivity | reflexivity].
  - destruct s as [|b s]; simpl.
    + split; [discriminate | intros [rest Hr]; discriminate].
    + rewrite andb_true_iff, Ascii.eqb_eq, IH. split.
      * intros [-> [rest ->]]. exists rest. reflexivity.
      * intros [rest Hr]. injection Hr as -> ->. split; [reflexivity | eauto].
Qed.

(** [Contains] is the substring test of [strings.Contains]. *)
Lemma Contains_correct (s sub : string) :
  Contains s sub = true <-> exists before after, s = before ++ sub ++ after.
Proof.
  induction s as [|c s IH]; simpl.
  - rewrite orb_false_r, HasPrefix_correct. split.
    + intros [rest Hr]. exists "", rest. exact Hr.
    + intros [before [after Hs]]. destruct before as [|b before].
      * exists after. exact Hs.
      * discriminate.
  - rewrite orb_true_iff, HasPrefix_correct, IH. split.
    + intros [[rest Hr] | [before [after Hs]]].
      * exists "", rest. exact Hr.
      * exists (String c before), after. simpl. rewrite Hs. reflexivity.
    + intros [before [after Hs]]. destruct before as [|b before].
      * left. exists after. exact Hs.
      * right. simpl in Hs. injection Hs as _ Hs. eauto.
Qed.

(** ** The content reader *)

Lemma newSnappyReadCloser_fresh (stream : ReadCloser) :
  newSnappyReadCloser stream <> stream.
Proof.
  intros Heq. apply (f_equal snappyDepth) in Heq. simpl in Heq. lia.
Qed.

Lemma headerValue_absent (h : list (string * string)) (key : string) :
  (forall v, ~ In (key, v) h) -> headerValue h key = "".
Proof.
  induction h as [|[k v] h IH]; intros Habs; simpl; [reflexivity|].
  destruct (String.eqb_spec k key) as [->|Hne].
  - exfalso. apply (Habs v). left. reflexivity.
  - apply IH. intros v' Hin. apply (Habs v'). right. exact Hin.
Qed.

(** C7: [newContentReader] returns the snappy reader over the stream
    exactly when the content type is the block-device clone token, and
    the stream itself for every other content type.  In the first case
    the reader is [io.NopCloser(snappy.NewReader(stream))] over this
    very stream: what is read is the stream's bytes decoded, so what was
    encoded comes back as it was.  In the second case the bytes read are
    those of the stream.  The token being non-empty, a request without
    the content type header, for which [Header.Get] gives the empty
    string, gets its stream back unchanged, and a request that carries
    the token under the canonical form of the header name gets the
    snappy reader. *)
Theorem newContentReader_wraps_only_blockdevice_clone `{Common}
    (stream : ReadCloser) (contentType : string)
    (decode : list byte -> error + list byte)
    (headers : list (string * string)) :
  BlockdeviceClone <> "" ->
  (forall v,
     ~ In (CanonicalMIMEHeaderKey UploadContentTypeHeader, v) headers) ->
  (newContentReader stream contentType = newSnappyReadCloser stream
   <-> contentType = BlockdeviceClone)
  /\ (contentType = BlockdeviceClone ->
      newContentReader stream contentType = NopCloserSnappy stream
      /\ readAll decode (newContentReader stream contentType)
         = match readAll decode stream with
           | None => None
           | Some (inl e) => Some (inl e)
           | Some (inr compressed) => Some (decode compressed)
           end)
  /\ (forall (encode : list byte -> list byte) (plain : list byte),
        decode (encode plain) = inr plain ->
        readAll decode
          (newContentReader (BodyReader (encode plain)) BlockdeviceClone)
        = Some (inr plain))
  /\ (contentType <> BlockdeviceClone ->
      newContentReader stream contentType = stream
      /\ readAll decode (newContentReader stream contentType)
         = readAll decode stream)
  /\ newContentReader stream "" = stream
  /\ newContentReader stream (HeaderGet headers UploadContentTypeHeader)
     = stream
  /\ (forall rest,
        newContentReader stream
          (HeaderGet
             ((CanonicalMIMEHeaderKey UploadContentTypeHeader,
               BlockdeviceClone) :: rest)
             UploadContentTypeHeader)
        = NopCloserSnappy stream).
Proof.
  intros Htoken Habsent.
  assert (Hother : forall ct, ct <> BlockdeviceClone ->
                              newContentReader stream ct = stream).
  { intros ct Hne. unfold newContentReader.
    destruct (String.eqb_spec ct BlockdeviceClone); [contradiction | reflexivity]. }
  assert (Hwrap : forall s, newContentReader s BlockdeviceClone
                            = NopCloserSnappy s).
  { intros s. unfold newContentReader. rewrite String.eqb_refl. reflexivity. }
  split; [|split; [|split; [|split; [|split; [|split]]]]].
  - split.
    + unfold newContentReader.
      destruct (String.eqb_spec contentType BlockdeviceClone) as [Heq|Hne].
      * intros _. exact Heq.
      * intros Hbad. symmetry in Hbad.
        exfalso. exact (newSnappyReadCloser_fresh stream Hbad).
    + intros ->. rewrite Hwrap. reflexivity.
  - intros ->. rewrite Hwrap. split; reflexivity.
  - intros encode plain Hcodec. rewrite Hwrap. simpl. rewrite Hcodec.
    reflexivity.
  - intros Hne. rewrite Hother by assumption. split; reflexivity.
  - apply Hother. congruence.
  - unfold HeaderGet. rewrite headerValue_absent by assumption.
    apply Hother. congruence.
  - intros rest. unfold HeaderGet. simpl. rewrite String.eqb_refl.
    apply Hwrap.
Qed.

Lemma newContentReader_wraps_only_blockdevice_clone_sample :
  @newContentReader sampleCommon (BodyReader [x41; x42])
    (HeaderGet [("X-Cdi-Content-Type", "blockdevice-clone")]
       "x-cdi-content-type")
  = NopCloserSnappy (BodyReader [x41; x42])
  /\ readAll (fun bs => inr (rev bs))
       (@newContentReader sampleCommon (BodyReader (rev [x41; x42]))
          "blockdevice-clone")
     = Some (inr [x41; x42])
  /\ @newContentReader sampleCommon (BodyReader [x41; x42])
       (HeaderGet [("Content-Length", "2")] "x-cdi-content-type")
     = BodyReader [x41; x42].
Proof.
  pose proof (@newContentReader_wraps_only_blockdevice_clone sampleCommon
                (BodyReader [x41; x42]) "blockdevice-clone"
                (fun bs => inr (rev bs)) [("Content-Length", "2")]
                ltac:(simpl; discriminate)
                ltac:(intros v [Hin | []]; vm_compute in Hin;
                      discriminate Hin))
    as (_ & _ & Hcodec & _ & _ & Habsent & Hpresent).
  split; [exact (Hpresent []) | split; [|exact Habsent]].
  apply (Hcodec (@rev byte) [x41; x42]). reflexivity.
Defined.

(** ** The archive extractor *)

Section ExtractorFacts.
Context `{Common}.

Lemma CopyN_within (payload : list byte) (srcEnd : error) (n : Z) :
  (0 <= n <= Z.of_nat (length payload))%Z ->
  CopyN payload srcEnd n = (take (Z.to_nat n) payload, None)
  /\ Z.of_nat (length (take (Z.to_nat n) payload)) = n.
Proof.
  intros Hn.
  assert (Hlen : Z.of_nat (length (take (Z.to_nat n) payload)) = n).
  { rewrite length_take. lia. }
  split; [|exact Hlen].
  unfold CopyN. rewrite Hlen, Z.eqb_refl. reflexivity.
Qed.

Lemma untarLoop_passedOver (pre rest : list (option Header * list byte))
    (last : error) (dest : string) (fs : filesystem) :
  forallb passedOver pre = true ->
  untarLoop (pre ++ rest)%list last dest fs = untarLoop rest last dest fs.
Proof.
  induction pre as [|[[h|] payload] pre IH]; simpl; intros Hpre.
  - reflexivity.
  - apply andb_true_iff in Hpre as [Hskip Hpre].
    unfold passedOver in Hskip. simpl in Hskip.
    destruct (Contains (Name h) DiskImageName); simpl in *.
    + rewrite negb_true_iff in Hskip. rewrite Hskip. auto.
    + auto.
  - auto.
Qed.

(** C6: the extractor passes over every entry whose name does not
    contain the disk image name; at the first regular or GNU sparse
    entry whose name contains it, it appends exactly [Size] bytes of
    that entry to the destination and returns, whatever entries follow. *)
Theorem untarToBlockdev_copies_first_match
    (pre post : list (option Header * list byte)) (header : Header)
    (payload : list byte) (last : error) (dest : string)
    (fs : filesystem) (old : list byte) :
  forallb passedOver pre = true ->
  Contains (Name header) DiskImageName = true ->
  isRegOrSparse (Typeflag header) = true ->
  fs !! dest = Some old ->
  (0 <= Size header <= Z.of_nat (length payload))%Z ->
  untarToBlockdev
    {| tarEntries := (pre ++ (Some header, payload) :: post)%list;
       tarEnd := last |} dest fs
  = (None, <[dest := (old ++ take (Z.to_nat (Size header)) payload)%list]> fs)
  /\ Z.of_nat (length (take (Z.to_nat (Size header)) payload)) = Size header
  /\ (forall (h : Header) (p : list byte)
             (rest : list (option Header * list byte)),
        Contains (Name h) DiskImageName = false ->
        untarLoop ((Some h, p) :: rest) last dest fs
        = untarLoop rest last dest fs).
Proof.
  intros Hpre Hname Htype Hdest Hsize.
  destruct (CopyN_within payload (entryEnd (Size header) payload)
              (Size header) Hsize) as [Hcopy Hlen].
  repeat split.
  - unfold untarToBlockdev. simpl. rewrite untarLoop_passedOver by exact Hpre.
    simpl. rewrite Hname, Htype, Hdest. simpl. rewrite Hcopy. reflexivity.
  - exact Hlen.
  - intros h p rest Hno. simpl. rewrite Hno. reflexivity.
Qed.

End ExtractorFacts.

Lemma untarToBlockdev_copies_first_match_sample :
  @untarToBlockdev sampleCommon sampleArchive "/dev/cdi-block-volume" sampleDisk
  = (None, <["/dev/cdi-block-volume" := [x00; x01; x02; x03]]> sampleDisk).
Proof.
  refine (proj1 (@untarToBlockdev_copies_first_match sampleCommon
    [(Some {| Name := "metadata.json"; Typeflag := TypeReg; Size := 2 |},
      [x7b; x7d])]
    [(Some {| Name := "disk.img.bak"; Typeflag := TypeReg; Size := 2 |},
      [x09; x09])]
    {| Name := "disk.img"; Typeflag := TypeReg; Size := 3 |}
    [x01; x02; x03] EOF "/dev/cdi-block-volume" sampleDisk [x00]
    _ _ _ _ _)).
  - reflexivity.
  - reflexivity.
  - reflexivity.
  - reflexivity.
  - simpl. lia.
Defined.

(** ** The admission check and the handlers *)

Lemma phaseOf_Idle (a : uploadServerApp) :
  phaseOf a = Idle <->
  uploading a = false /\ processing a = false /\ done a = false.
Proof.
  unfold phaseOf.
  destruct (uploading a), (processing a), (done a); split; intros Hx;
    try discriminate; try (destruct Hx as (? & ? & ?); discriminate); auto.
Qed.

Lemma phaseOf_Done (a : uploadServerApp) :
  phaseOf a = Done <->
  uploading a = false /\ processing a = false /\ done a = true.
Proof.
  unfold phaseOf.
  destruct (uploading a), (processing a), (done a); split; intros Hx;
    try discriminate; try (destruct Hx as (? & ? & ?); discriminate); auto.
Qed.

Lemma peerFound_false (certs : list Certificate) (name : string) :
  (forall cert, In cert certs -> SubjectCommonName cert <> name) ->
  peerFound certs name = false.
Proof.
  intros Hnone. unfold peerFound.
  induction certs as [|c certs IH]; simpl; [reflexivity|].
  destruct (String.eqb_spec (SubjectCommonName c) name) as [Heq|Hne].
  - exfalso. apply (Hnone c); [left; reflexivity | exact Heq].
  - apply IH. intros cert Hin. apply Hnone. right. exact Hin.
Qed.

Section HandlerFacts.
Context `{Common} `{Processors}.

Lemma validate_reaches_phaseCheck (r : Request) (s : system)
    (w : ResponseWriter) :
  Method r = MethodPost ->
  peerAccepted r (clientName (app s)) = true ->
  validateShouldHandleRequest r (s, w) = phaseCheck (s, w).
Proof.
  intros Hm Hp. unfold validateShouldHandleRequest. rewrite Hm. simpl.
  unfold getApp, bind. simpl. rewrite Hp. reflexivity.
Qed.

Lemma validate_not_post (r : Request) (s : system) (w : ResponseWriter) :
  String.eqb (Method r) MethodPost = false ->
  validateShouldHandleRequest r (s, w)
  = (false, (s, writeHeader StatusNotFound w)).
Proof.
  intros Hm. unfold validateShouldHandleRequest. rewrite Hm. reflexivity.
Qed.

Lemma validate_peer_rejected (r : Request) (s : system)
    (w : ResponseWriter) :
  Method r = MethodPost ->
  peerAccepted r (clientName (app s)) = false ->
  validateShouldHandleRequest r (s, w)
  = (false, (s, writeHeader StatusUnauthorized w)).
Proof.
  intros Hm Hp. unfold validateShouldHandleRequest. rewrite Hm. simpl.
  unfold getApp, WriteHeader, bind, ret. simpl. rewrite Hp. reflexivity.
Qed.

Lemma phaseCheck_eq (s : system) (w : ResponseWriter) :
  phaseCheck (s, w)
  = if uploading (app s) || processing (app s) then
      (false, (withApp (lockMutex (app s)) s,
               writeHeader StatusServiceUnavailable w))
    else if done (app s) then
      (false, (withApp (lockMutex (app s)) s, writeHeader StatusConflict w))
    else
      (true, (withApp (setUploading true (lockMutex (app s))) s, w)).
Proof.
  unfold phaseCheck, Lock, modifyApp, getApp, WriteHeader, bind, ret. simpl.
  destruct (uploading (app s)), (processing (app s)), (done (app s));
    reflexivity.
Qed.

(** C4: with the mutex held, the admission check answers by the phase
    of the session.  Uploading or Processing: 503, rejected, no session
    field changed.  Done: 409, rejected, no session field changed.
    Idle: [uploading] is set and the request is admitted, nothing is
    written to the response.  A POST that passes the peer check gets
    exactly this answer from [validateShouldHandleRequest]. *)
Theorem phaseCheck_by_phase (s : system) (w : ResponseWriter) :
  match phaseOf (app s) with
  | Uploading | Processing =>
      phaseCheck (s, w)
      = (false, (withApp (lockMutex (app s)) s,
                 writeHeader StatusServiceUnavailable w))
  | Done =>
      phaseCheck (s, w)
      = (false, (withApp (lockMutex (app s)) s,
                 writeHeader StatusConflict w))
  | Idle =>
      phaseCheck (s, w)
      = (true, (withApp (setUploading true (lockMutex (app s))) s, w))
      /\ phaseOf (setUploading true (lockMutex (app s))) = Uploading
  end
  /\ session (lockMutex (app s)) = session (app s)
  /\ (forall r : Request,
        Method r = MethodPost ->
        peerAccepted r (clientName (app s)) = true ->
        validateShouldHandleRequest r (s, w) = phaseCheck (s, w)).
Proof.
  split; [|split].
  - unfold phaseOf, phaseCheck, Lock, modifyApp, getApp, WriteHeader, bind, ret.
    simpl.
    destruct (uploading (app s)), (processing (app s)), (done (app s));
      simpl; try reflexivity.
    split; reflexivity.
  - reflexivity.
  - intros r. apply validate_reaches_phaseCheck.
Qed.

(** C8: a HEAD request on an asynchronous path is answered 200 and
    leaves the whole server value, hence every session field, as it
    was, whatever the flags are. *)
Theorem head_on_async_path_is_a_probe (irc : imageReadCloser) (r : Request)
    (s : system) :
  Method r = MethodHead ->
  uploadHandlerAsync irc r (s, newResponseWriter)
  = (tt, (s, writeHeader StatusOK newResponseWriter))
  /\ responseStatus (writeHeader StatusOK newResponseWriter) = StatusOK
  /\ (forall rt, rt = AsyncUploadPath \/ rt = AsyncUploadFormPath ->
        app (fst (serve rt r s)) = app s
        /\ session (app (fst (serve rt r s))) = session (app s)
        /\ responseStatus (snd (serve rt r s)) = StatusOK
        /\ app (step (Arrive rt r) s) = app s).
Proof.
  intros Hm.
  assert (Hrun : forall irc', uploadHandlerAsync irc' r (s, newResponseWriter)
                 = (tt, (s, writeHeader StatusOK newResponseWriter))).
  { intros irc'. unfold uploadHandlerAsync. rewrite Hm. reflexivity. }
  split; [apply Hrun | split; [reflexivity|]].
  intros rt [-> | ->]; unfold serve, ServeHTTP, step, handlerEntry;
    rewrite Hrun, Hm; simpl; repeat split; reflexivity.
Qed.

(** C9: a POST over TLS none of whose peer certificates carries the
    expected common name is answered 401; the mutex is never taken, so
    the phase check does not run, and the process is left exactly as it
    was.  The method check comes first: a request that is not a POST is
    answered 404 whatever its certificates. *)
Theorem peer_mismatch_rejected_before_phase_check (r : Request)
    (state : ConnectionState) (s : system) (w : ResponseWriter) :
  Method r = MethodPost ->
  TLS r = Some state ->
  (forall cert, In cert (PeerCertificates state) ->
                SubjectCommonName cert <> clientName (app s)) ->
  validateShouldHandleRequest r (s, w)
  = (false, (s, writeHeader StatusUnauthorized w))
  /\ (forall rt, ServeHTTP rt r (s, w)
                 = (tt, (s, writeHeader StatusUnauthorized w)))
  /\ (forall r' : Request,
        Method r' <> MethodPost ->
        validateShouldHandleRequest r' (s, w)
        = (false, (s, writeHeader StatusNotFound w))).
Proof.
  intros Hm Htls Hnone.
  assert (Hpeer : peerAccepted r (clientName (app s)) = false).
  { unfold peerAccepted. rewrite Htls. apply peerFound_false. exact Hnone. }
  assert (Hval : validateShouldHandleRequest r (s, w)
                 = (false, (s, writeHeader StatusUnauthorized w))).
  { unfold validateShouldHandleRequest. rewrite Hm. simpl.
    unfold getApp, WriteHeader, bind, ret. simpl. rewrite Hpeer.
    reflexivity. }
  split; [exact Hval | split].
  - intros rt.
    assert (Hhead : String.eqb (Method r) MethodHead = false)
      by (rewrite Hm; reflexivity).
    destruct rt; unfold ServeHTTP, uploadHandler, uploadArchiveHandler,
      uploadHandlerAsync, processUpload; rewrite ?Hhead;
      unfold bind at 1; rewrite Hval; reflexivity.
  - intros r' Hne.
    unfold validateShouldHandleRequest, WriteHeader, bind, ret.
    destruct (String.eqb_spec (Method r') MethodPost) as [Heq|_];
      [contradiction | reflexivity].
Qed.

End HandlerFacts.

(** ** The handlers past the admission check *)

Section AdmittedFacts.
Context `{Common} `{Processors}.

(** What [processUpload] does once admitted, in one equation. *)
Lemma processUploadAdmitted_eq (irc : imageReadCloser) (r : Request)
    (dv : DataVolumeContentType) (s : system) (w : ResponseWriter) :
  let a := app s in
  let result :=
    uploadProcessorFunc (fst (irc r)) (destination a) (imageSize a)
      (filesystemOverhead a) (preallocation a)
      (HeaderGet (RequestHeader r) UploadContentTypeHeader) dv in
  let w1 := match snd (irc r) with
            | Some _ => writeHeader StatusBadRequest w
            | None => w
            end in
  let s1 := withProcessorCalls (processorCalls s ++ [fst (irc r)])%list s in
  let a1 := lockMutex (setPreallocationApplied (fst result) a) in
  processUploadAdmitted irc r dv (s, w)
  = match snd result with
    | Some e =>
        (Some e, (withApp (setUploading false a1) s1,
                  writeHeader StatusInternalServerError w1))
    | None =>
        (None, (withApp (closeDoneChan (setDone true (setUploading false a1)))
                  s1, w1))
    end.
Proof.
  unfold processUploadAdmitted.
  destruct (irc r) as [rc ircErr]. simpl.
  destruct ircErr;
    unfold noteProcessorCall, Lock, WriteHeader, modifyApp, getApp, bind, ret;
    simpl;
    destruct (uploadProcessorFunc _ _ _ _ _ _ _) as [applied [e'|]];
    reflexivity.
Qed.

(** What [uploadHandlerAsync] does once admitted, in one equation. *)
Lemma uploadHandlerAsyncAdmitted_eq (irc : imageReadCloser) (r : Request)
    (s : system) (w : ResponseWriter) :
  let a := app s in
  let result :=
    uploadProcessorFuncAsync (fst (irc r)) (destination a) (imageSize a)
      (filesystemOverhead a) (preallocation a)
      (HeaderGet (RequestHeader r) UploadContentTypeHeader) in
  let w1 := match snd (irc r) with
            | Some _ => writeHeader StatusBadRequest w
            | None => w
            end in
  let s1 := withProcessorCalls (processorCalls s ++ [fst (irc r)])%list s in
  uploadHandlerAsyncAdmitted irc r (s, w)
  = match snd result with
    | Some e =>
        (Some e,
         (withApp (setUploading false (lockMutex a)) s1,
          writeString ("Saving stream failed: " ++ Error e)
            (writeHeader (if errorsAsValidationSizeError e
                          then StatusBadRequest
                          else StatusInternalServerError) w1)))
    | None =>
        (None,
         (withGoroutines (goroutines s ++ [GoResume (fst result)])%list
            (withApp (setProcessing true (setUploading false (lockMutex a)))
               s1), w1))
    end.
Proof.
  unfold uploadHandlerAsyncAdmitted.
  destruct (irc r) as [rc ircErr]. simpl.
  destruct ircErr;
    unfold noteProcessorCall, Lock, go, Fprintf, WriteHeader, modifyApp,
      getApp, bind, ret;
    simpl;
    destruct (uploadProcessorFuncAsync _ _ _ _ _ _) as [processor [e'|]];
    simpl; try reflexivity;
    destruct (errorsAsValidationSizeError e'); reflexivity.
Qed.

(** A POST that passes the peer check, on an idle session, is
    admitted. *)
Lemma validate_admits_idle (r : Request) (s : system) (w : ResponseWriter) :
  Method r = MethodPost ->
  peerAccepted r (clientName (app s)) = true ->
  phaseOf (app s) = Idle ->
  validateShouldHandleRequest r (s, w)
  = (true, (withApp (setUploading true (lockMutex (app s))) s, w)).
Proof.
  intros Hm Hp Hidle.
  rewrite validate_reaches_phaseCheck by assumption.
  apply phaseOf_Idle in Hidle as (Hu & Hp' & Hd).
  unfold phaseCheck, Lock, modifyApp, getApp, bind, ret. simpl.
  rewrite Hu, Hp', Hd. reflexivity.
Qed.

Lemma processUpload_admitted (irc : imageReadCloser) (r : Request)
    (dv : DataVolumeContentType) (s : system) (w : ResponseWriter) :
  Method r = MethodPost ->
  peerAccepted r (clientName (app s)) = true ->
  phaseOf (app s) = Idle ->
  processUpload irc r dv (s, w)
  = (tt, snd (processUploadAdmitted irc r dv
                (withApp (setUploading true (lockMutex (app s))) s, w))).
Proof.
  intros Hm Hp Hidle. unfold processUpload, bind at 1.
  rewrite validate_admits_idle by assumption. cbn [negb]. cbv iota.
  unfold bind, ret.
  destruct (processUploadAdmitted irc r dv _) as [x st]. reflexivity.
Qed.

Lemma uploadHandlerAsync_admitted (irc : imageReadCloser) (r : Request)
    (s : system) (w : ResponseWriter) :
  Method r = MethodPost ->
  peerAccepted r (clientName (app s)) = true ->
  phaseOf (app s) = Idle ->
  uploadHandlerAsync irc r (s, w)
  = (tt, snd (uploadHandlerAsyncAdmitted irc r
                (withApp (setUploading true (lockMutex (app s))) s, w))).
Proof.
  intros Hm Hp Hidle. unfold uploadHandlerAsync.
  rewrite Hm. simpl (String.eqb _ _). cbv iota. unfold bind at 1.
  rewrite validate_admits_idle by assumption. cbn [negb]. cbv iota.
  unfold bind, ret.
  destruct (uploadHandlerAsyncAdmitted irc r _) as [x st]. reflexivity.
Qed.

End AdmittedFacts.

(** ** Status codes for processor failures *)

Section FailureStatus.
Context `{Common} `{Processors}.

Lemma formReadCloser_error_nil (r : Request) (e : error) :
  snd (formReadCloser r) = Some e -> fst (formReadCloser r) = NilReadCloser.
Proof.
  unfold formReadCloser. destruct (MultipartReader r) as [err|mr]; simpl.
  - reflexivity.
  - induction (formParts mr) as [|p ps IH]; simpl; [reflexivity|].
    destruct (String.eqb (FormName p) "file"); simpl; [discriminate | exact IH].
Qed.

(** The asynchronous handler tells the two kinds of failure apart: on
    an idle session, with the body read, a size validation error of the
    processor function is answered 400 and any other error 500. *)
Lemma async_failure_status (r : Request) (s : system)
    (processor : DataProcessor) (e : error) :
  Method r = MethodPost ->
  peerAccepted r (clientName (app s)) = true ->
  phaseOf (app s) = Idle ->
  uploadProcessorFuncAsync (BodyReader (Body r)) (destination (app s))
    (imageSize (app s)) (filesystemOverhead (app s)) (preallocation (app s))
    (HeaderGet (RequestHeader r) UploadContentTypeHeader)
  = (processor, Some e) ->
  responseStatus (snd (serve AsyncUploadPath r s))
  = if errorsAsValidationSizeError e
    then StatusBadRequest else StatusInternalServerError.
Proof.
  intros Hm Hp Hidle Hproc.
  unfold serve, ServeHTTP.
  rewrite uploadHandlerAsync_admitted by assumption.
  rewrite uploadHandlerAsyncAdmitted_eq.
  simpl. rewrite Hproc. simpl.
  destruct (errorsAsValidationSizeError e); reflexivity.
Qed.

(** C3, on the code: the synchronous handler does not look at the
    kind of the error.  On an idle session, with the body read, a size
    validation error of the processor function is answered 500, where
    the asynchronous handler answers 400. *)
Theorem sync_size_validation_error_answered_500 (r : Request) (s : system)
    (applied : bool) (e : error) :
  Method r = MethodPost ->
  peerAccepted r (clientName (app s)) = true ->
  phaseOf (app s) = Idle ->
  uploadProcessorFunc (BodyReader (Body r)) (destination (app s))
    (imageSize (app s)) (filesystemOverhead (app s)) (preallocation (app s))
    (HeaderGet (RequestHeader r) UploadContentTypeHeader) DataVolumeKubeVirt
  = (applied, Some e) ->
  errorsAsValidationSizeError e = true ->
  headerCalls (snd (serve SyncUploadPath r s)) = [StatusInternalServerError]
  /\ responseStatus (snd (serve SyncUploadPath r s))
     = StatusInternalServerError.
Proof.
  intros Hm Hp Hidle Hproc _.
  unfold serve, ServeHTTP, uploadHandler.
  rewrite processUpload_admitted by assumption.
  rewrite processUploadAdmitted_eq.
  simpl. rewrite Hproc. simpl. split; reflexivity.
Qed.

(** C10, as the code has it: when [formReadCloser] fails after the
    admission, both handlers write 400 and go on: the processor function
    is called with the nil stream, and when it returns an error a second
    status is written on the same response, 500 by the synchronous
    handler, and by the asynchronous handler 400 for a size validation
    error and 500 for any other.  The client sees the first status. *)
Theorem failed_body_extraction_is_not_a_return (r : Request) (s : system)
    (ircErr : error) :
  Method r = MethodPost ->
  peerAccepted r (clientName (app s)) = true ->
  phaseOf (app s) = Idle ->
  snd (formReadCloser r) = Some ircErr ->
  (forall (applied : bool) (e : error),
     uploadProcessorFunc NilReadCloser (destination (app s))
       (imageSize (app s)) (filesystemOverhead (app s))
       (preallocation (app s))
       (HeaderGet (RequestHeader r) UploadContentTypeHeader)
       DataVolumeKubeVirt
     = (applied, Some e) ->
     headerCalls (snd (serve SyncUploadFormPath r s))
     = [StatusBadRequest; StatusInternalServerError]
     /\ processorCalls (fst (serve SyncUploadFormPath r s))
        = (processorCalls s ++ [NilReadCloser])%list
     /\ responseStatus (snd (serve SyncUploadFormPath r s))
        = StatusBadRequest)
  /\ (forall (processor : DataProcessor) (e : error),
        uploadProcessorFuncAsync NilReadCloser (destination (app s))
          (imageSize (app s)) (filesystemOverhead (app s))
          (preallocation (app s))
          (HeaderGet (RequestHeader r) UploadContentTypeHeader)
        = (processor, Some e) ->
        headerCalls (snd (serve AsyncUploadFormPath r s))
        = [StatusBadRequest;
           if errorsAsValidationSizeError e
           then StatusBadRequest else StatusInternalServerError]
        /\ processorCalls (fst (serve AsyncUploadFormPath r s))
           = (processorCalls s ++ [NilReadCloser])%list
        /\ responseStatus (snd (serve AsyncUploadFormPath r s))
           = StatusBadRequest).
Proof.
  intros Hm Hp Hidle Hirc.
  pose proof (formReadCloser_error_nil r ircErr Hirc) as Hnil.
  split.
  - intros applied e Hproc.
    unfold serve, ServeHTTP, uploadHandler.
    rewrite processUpload_admitted by assumption.
    rewrite processUploadAdmitted_eq.
    rewrite Hirc, Hnil. simpl. rewrite Hproc. simpl.
    repeat split; reflexivity.
  - intros processor e Hproc.
    unfold serve, ServeHTTP.
    rewrite uploadHandlerAsync_admitted by assumption.
    rewrite uploadHandlerAsyncAdmitted_eq.
    rewrite Hirc, Hnil. simpl. rewrite Hproc. simpl.
    destruct (errorsAsValidationSizeError e); repeat split; reflexivity.
Qed.

End FailureStatus.

(** ** The invariant of the process *)

Lemma countIf_app {A : Type} (p : A -> bool) (l1 l2 : list A) :
  countIf p (l1 ++ l2)%list = countIf p l1 + countIf p l2.
Proof.
  induction l1 as [|x l1 IH]; simpl; [reflexivity | rewrite IH; lia].
Qed.

Lemma countIf_insert {A : Type} (p : A -> bool) (l : list A) (i : nat)
    (x y : A) :
  l !! i = Some x ->
  countIf p (<[i := y]> l) + b2n (p x) = countIf p l + b2n (p y).
Proof.
  revert i. induction l as [|z l IH]; intros [|i] Hi; simpl in *;
    try discriminate.
  - injection Hi as ->. lia.
  - specialize (IH i Hi). lia.
Qed.

Lemma length_delete_Some {A : Type} (l : list A) (i : nat) (x : A) :
  l !! i = Some x -> S (length (delete i l)) = length l.
Proof.
  revert i. induction l as [|z l IH]; intros [|i] Hi; simpl in *;
    try discriminate; [reflexivity | rewrite (IH i Hi); reflexivity].
Qed.


Section ProcessFacts.
Context `{Common} `{Processors}.

(** The three ways the entry of a handler can end: answered before
    the mutex is taken, rejected by the phase check, admitted. *)
Lemma handlerEntry_cases (rt : route) (r : Request) (s : system)
    (w : ResponseWriter) :
  (exists w', handlerEntry rt r (s, w) = (false, (s, w')))
  \/ (phaseOf (app s) <> Idle /\
      exists w', handlerEntry rt r (s, w)
                 = (false, (withApp (lockMutex (app s)) s, w')))
  \/ (phaseOf (app s) = Idle /\
      handlerEntry rt r (s, w)
      = (true, (withApp (setUploading true (lockMutex (app s))) s, w))).
Proof.
  assert (Hval :
    (exists w', validateShouldHandleRequest r (s, w) = (false, (s, w')))
    \/ (phaseOf (app s) <> Idle /\
        exists w', validateShouldHandleRequest r (s, w)
                   = (false, (withApp (lockMutex (app s)) s, w')))
    \/ (phaseOf (app s) = Idle /\
        validateShouldHandleRequest r (s, w)
        = (true, (withApp (setUploading true (lockMutex (app s))) s, w)))).
  { destruct (String.eqb (Method r) MethodPost) eqn:Hm.
    2: { left. eexists. apply validate_not_post. exact Hm. }
    apply String.eqb_eq in Hm.
    destruct (peerAccepted r (clientName (app s))) eqn:Hp.
    2: { left. eexists. apply validate_peer_rejected; assumption. }
    right. rewrite validate_reaches_phaseCheck by assumption.
    rewrite phaseCheck_eq. unfold phaseOf.
    destruct (uploading (app s)), (processing (app s)), (done (app s));
      simpl.
    all: try (left; split; [discriminate | eexists; reflexivity]).
    right. split; reflexivity. }
  destruct rt; simpl; try exact Hval;
    destruct (String.eqb (Method r) MethodHead); try exact Hval;
    left; eexists; reflexivity.
Qed.

(** The four ways an admitted handler can end. *)
Lemma handlerRest_cases (rt : route) (r : Request) (s : system)
    (w : ResponseWriter) :
  (exists e applied w' calls,
      handlerRest rt r (s, w)
      = (Some e,
         (withApp (setUploading false
                     (lockMutex (setPreallocationApplied applied (app s))))
            (withProcessorCalls calls s), w')))
  \/ (exists applied w' calls,
        handlerRest rt r (s, w)
        = (None,
           (withApp (closeDoneChan (setDone true (setUploading false
                       (lockMutex (setPreallocationApplied applied (app s))))))
              (withProcessorCalls calls s), w')))
  \/ (exists e w' calls,
        handlerRest rt r (s, w)
        = (Some e,
           (withApp (setUploading false (lockMutex (app s)))
              (withProcessorCalls calls s), w')))
  \/ (exists processor w' calls,
        handlerRest rt r (s, w)
        = (None,
           (withGoroutines (goroutines s ++ [GoResume processor])%list
              (withApp (setProcessing true (setUploading false
                          (lockMutex (app s))))
                 (withProcessorCalls calls s)), w'))).
Proof.
  destruct rt; simpl;
    rewrite ?processUploadAdmitted_eq, ?uploadHandlerAsyncAdmitted_eq; simpl;
    match goal with
    | |- context [snd ?res] => destruct (snd res) as [e|]
    end.
  all: first
    [ left; repeat eexists; reflexivity
    | right; left; repeat eexists; reflexivity
    | right; right; left; repeat eexists; reflexivity
    | right; right; right; repeat eexists; reflexivity ].
Qed.

Lemma invariant_start (dest name size : string) (overhead : float)
    (prealloc : bool) :
  invariant (startSystem (NewUploadServer dest name size overhead prealloc)).
Proof. constructor; simpl; lia. Qed.

Lemma invariant_step (ev : event) (s : system) :
  invariant s -> invariant (step ev s).
Proof.
  intros [Hh Hr Hc Hx Hn]. destruct ev as [rt r|i|i| |err]; simpl.
  - destruct (handlerEntry_cases rt r s newResponseWriter)
      as [[w' ->] | [[_ [w' ->]] | [Hidle ->]]].
    + constructor; simpl; assumption.
    + constructor; simpl; assumption.
    + apply phaseOf_Idle in Hidle as (Hu & Hp & Hd).
      rewrite Hu, Hp, Hd in *.
      constructor; simpl; rewrite ?length_app, ?Hp, ?Hd; simpl in *; lia.
  - destruct (handlers s !! i) as [h|] eqn:Hi;
      [|constructor; assumption].
    pose proof (length_delete_Some _ _ _ Hi) as Hlen.
    assert (Hu : uploading (app s) = true).
    { destruct (uploading (app s)); [reflexivity|]. simpl in Hh. lia. }
    rewrite Hu in *. simpl in Hx.
    assert (Hp : processing (app s) = false)
      by (destruct (processing (app s)); [simpl in Hx; lia | reflexivity]).
    assert (Hd : done (app s) = false)
      by (destruct (done (app s)); [simpl in Hx; lia | reflexivity]).
    rewrite Hp, Hd in *. simpl in *.
    destruct (handlerRest_cases (handlerRoute h) (handlerRequest h)
                (withHandlers (delete i (handlers s)) s) (handlerWriter h))
      as [(e & ap & w' & cs & ->) | [(ap & w' & cs & ->)
         | [(e & w' & cs & ->) | (p & w' & cs & ->)]]].
    all: constructor; simpl;
      rewrite ?countIf_app, ?Hp, ?Hd; simpl; lia.
  - destruct (goroutines s !! i) as [g|] eqn:Hi;
      [|constructor; assumption].
    destruct g as [p|p e|p| |]; simpl.
    + destruct (ProcessDataResume p) as [e|].
      * count_goroutine @countIf_insert Hi (GoSendErr p e). constructor; simpl in *; lia.
      * count_goroutine @countIf_insert Hi (GoRecord p). constructor; simpl in *; lia.
    + destruct (run s).
      * count_goroutine @countIf_insert Hi (GoRecord p). constructor; simpl in *; lia.
      * count_goroutine @countIf_insert Hi (GoSendErr p e). constructor; simpl in *; lia.
    + count_goroutine @countIf_insert Hi GoCloseDone.
      assert (Hp : processing (app s) = true).
      { destruct (processing (app s)); [reflexivity|]. simpl in *. lia. }
      rewrite Hp in *. simpl in *.
      assert (Hu : uploading (app s) = false)
        by (destruct (uploading (app s)); [simpl in Hx; lia | reflexivity]).
      assert (Hd : done (app s) = false)
        by (destruct (done (app s)); [simpl in Hx; lia | reflexivity]).
      rewrite Hu, Hd in *. simpl in *.
      constructor; simpl; rewrite ?Hu; simpl; lia.
    + count_goroutine @countIf_insert Hi GoExited. constructor; simpl in *; lia.
    + count_goroutine @countIf_insert Hi GoExited. constructor; simpl in *; lia.
  - destruct (run s); [|constructor; assumption].
    destruct (Nat.ltb 0 (doneChan (app s))); constructor; assumption.
  - destruct (run s); constructor; assumption.
Qed.

Lemma invariant_exec (evs : list event) (s : system) :
  invariant s -> invariant (exec evs s).
Proof.
  revert s. induction evs as [|ev evs IH]; intros s Hinv; simpl.
  - exact Hinv.
  - apply IH. apply invariant_step. exact Hinv.
Qed.

Lemma reachable_invariant (s : system) : reachable s -> invariant s.
Proof.
  intros (dest & name & size & overhead & prealloc & evs & ->).
  apply invariant_exec. apply invariant_start.
Qed.

(** The done channel is never closed twice. *)
Lemma doneChan_closed_at_most_once (s : system) :
  reachable s -> doneChan (app s) <= 1.
Proof.
  intros Hr. apply reachable_invariant in Hr as [_ _ Hc _ _].
  destruct (done (app s)); simpl in Hc; lia.
Qed.

Lemma reachable_exec (evs : list event) (s : system) :
  reachable s -> reachable (exec evs s).
Proof.
  intros (dest & name & size & overhead & prealloc & evs0 & ->).
  exists dest, name, size, overhead, prealloc, (evs0 ++ evs)%list.
  unfold exec. rewrite fold_left_app. reflexivity.
Qed.

End ProcessFacts.

(** ** Serving a request, and what stays once done *)

Section ServingFacts.
Context `{Common} `{Processors}.

(** A handler is its entry followed, when admitted, by its rest. *)
Lemma ServeHTTP_entry_rest (rt : route) (r : Request)
    (st : system * ResponseWriter) :
  ServeHTTP rt r st
  = if fst (handlerEntry rt r st)
    then (tt, snd (handlerRest rt r (snd (handlerEntry rt r st))))
    else (tt, snd (handlerEntry rt r st)).
Proof.
  destruct rt; simpl;
    unfold uploadHandler, uploadArchiveHandler, processUpload,
      uploadHandlerAsync;
    try (destruct (String.eqb (Method r) MethodHead); [reflexivity|]);
    unfold bind at 1;
    destruct (validateShouldHandleRequest r st) as [[|] st1]; simpl;
    try reflexivity; unfold bind, ret;
    match goal with
    | |- context [let '(_, _) := ?c in _] => destruct c; reflexivity
    end.
Qed.

(** On a session that is done, a request is answered 200 (the HEAD
    probe), 404, 401 or, for a POST that passes the peer check, 409. *)
Lemma handlerEntry_done (rt : route) (r : Request) (s : system)
    (w : ResponseWriter) :
  phaseOf (app s) = Done ->
  (Method r = MethodHead /\
   handlerEntry rt r (s, w) = (false, (s, writeHeader StatusOK w)))
  \/ (String.eqb (Method r) MethodPost = false /\
      handlerEntry rt r (s, w) = (false, (s, writeHeader StatusNotFound w)))
  \/ (peerAccepted r (clientName (app s)) = false /\
      handlerEntry rt r (s, w)
      = (false, (s, writeHeader StatusUnauthorized w)))
  \/ (Method r = MethodPost /\ peerAccepted r (clientName (app s)) = true /\
      handlerEntry rt r (s, w)
      = (false, (withApp (lockMutex (app s)) s,
                 writeHeader StatusConflict w))).
Proof.
  intros Hdone. apply phaseOf_Done in Hdone as (Hu & Hp & Hd).
  assert (Hval :
    (String.eqb (Method r) MethodPost = false /\
     validateShouldHandleRequest r (s, w)
     = (false, (s, writeHeader StatusNotFound w)))
    \/ (peerAccepted r (clientName (app s)) = false /\
        validateShouldHandleRequest r (s, w)
        = (false, (s, writeHeader StatusUnauthorized w)))
    \/ (Method r = MethodPost /\
        peerAccepted r (clientName (app s)) = true /\
        validateShouldHandleRequest r (s, w)
        = (false, (withApp (lockMutex (app s)) s,
                   writeHeader StatusConflict w)))).
  { destruct (String.eqb (Method r) MethodPost) eqn:Hm.
    2: { left. split; [reflexivity | apply validate_not_post; exact Hm]. }
    apply String.eqb_eq in Hm.
    destruct (peerAccepted r (clientName (app s))) eqn:Hpeer.
    2: { right. left. split; [reflexivity|].
         apply validate_peer_rejected; assumption. }
    right. right. repeat split; try assumption.
    rewrite validate_reaches_phaseCheck by assumption.
    rewrite phaseCheck_eq, Hu, Hp, Hd. reflexivity. }
  destruct rt; simpl; try (right; exact Hval);
    destruct (String.eqb_spec (Method r) MethodHead);
    try (right; exact Hval); left; (split; [assumption | reflexivity]).
Qed.

Lemma goStep_goroutines (g : goroutine) (s : system) :
  goroutines (snd (goStep g s)) = goroutines s.
Proof.
  destruct g as [p|p e|p| |]; simpl; try reflexivity.
  - destruct (ProcessDataResume p); reflexivity.
  - destruct (run s); reflexivity.
Qed.

Lemma goStep_done (g : goroutine) (s : system) :
  done (app s) = true -> done (app (snd (goStep g s))) = true.
Proof.
  destruct g as [p|p e|p| |]; simpl; try (intros; assumption || reflexivity).
  - destruct (ProcessDataResume p); intros; assumption.
  - destruct (run s); intros; assumption.
Qed.

(** No step clears [done]. *)
Lemma done_step (ev : event) (s : system) :
  done (app s) = true -> done (app (step ev s)) = true.
Proof.
  intros Hd. destruct ev as [rt r|i|i| |err]; simpl.
  - destruct (handlerEntry_cases rt r s newResponseWriter)
      as [[w' ->] | [[_ [w' ->]] | [_ ->]]]; simpl; exact Hd.
  - destruct (handlers s !! i) as [h|]; [|exact Hd].
    destruct (handlerRest_cases (handlerRoute h) (handlerRequest h)
                (withHandlers (delete i (handlers s)) s) (handlerWriter h))
      as [(e & ap & w' & cs & ->) | [(ap & w' & cs & ->)
         | [(e & w' & cs & ->) | (p & w' & cs & ->)]]]; simpl;
      first [exact Hd | reflexivity].
  - destruct (goroutines s !! i) as [g|]; [|exact Hd].
    pose proof (goStep_done g s Hd) as Hg.
    destruct (goStep g s) as [g' s']. simpl in *. exact Hg.
  - destruct (run s); [|exact Hd].
    destruct (Nat.ltb 0 (doneChan (app s))); exact Hd.
  - destruct (run s); exact Hd.
Qed.

Lemma done_exec (evs : list event) (s : system) :
  done (app s) = true -> done (app (exec evs s)) = true.
Proof.
  revert s. induction evs as [|ev evs IH]; intros s Hd; simpl.
  - exact Hd.
  - apply IH. apply done_step. exact Hd.
Qed.

(** In a reachable state [done] excludes the other two flags. *)
Lemma reachable_done_phase (s : system) :
  reachable s -> done (app s) = true -> phaseOf (app s) = Done.
Proof.
  intros Hr Hd. apply reachable_invariant in Hr as [_ _ _ Hx _].
  apply phaseOf_Done. rewrite Hd in *.
  destruct (uploading (app s)), (processing (app s)); simpl in Hx;
    try lia; auto.
Qed.

(** C5, as the code has it: once a reachable process has [done] set,
    then after any further events [done] is still set and [uploading]
    and [processing] are false; every POST that passes the peer check is
    answered 409 and leaves the session fields as they are; and no
    request at all, whatever its method and certificates, is answered
    503. *)
Theorem done_is_terminal (s : system) (evs : list event) :
  reachable s ->
  done (app s) = true ->
  done (app (exec evs s)) = true
  /\ uploading (app (exec evs s)) = false
  /\ processing (app (exec evs s)) = false
  /\ (forall rt r,
        Method r = MethodPost ->
        peerAccepted r (clientName (app (exec evs s))) = true ->
        responseStatus (snd (serve rt r (exec evs s))) = StatusConflict
        /\ session (app (fst (serve rt r (exec evs s))))
           = session (app (exec evs s)))
  /\ (forall rt r,
        responseStatus (snd (serve rt r (exec evs s)))
        <> StatusServiceUnavailable).
Proof.
  intros Hr Hd.
  pose proof (done_exec evs s Hd) as Hd'.
  pose proof (reachable_done_phase _ (reachable_exec evs s Hr) Hd') as Hph.
  pose proof Hph as Hflags. apply phaseOf_Done in Hflags as (Hu & Hp & _).
  split; [exact Hd'|]. split; [exact Hu|]. split; [exact Hp|]. split.
  - intros rt r Hm Hpeer. unfold serve. rewrite ServeHTTP_entry_rest.
    destruct (handlerEntry_done rt r (exec evs s) newResponseWriter Hph)
      as [[Hhead _] | [[Hpost _] | [[Hrej _] | (_ & _ & ->)]]].
    + rewrite Hm in Hhead. discriminate Hhead.
    + rewrite Hm in Hpost. discriminate Hpost.
    + congruence.
    + split; reflexivity.
  - intros rt r. unfold serve. rewrite ServeHTTP_entry_rest.
    destruct (handlerEntry_done rt r (exec evs s) newResponseWriter Hph)
      as [[_ ->] | [[_ ->] | [[_ ->] | (_ & _ & ->)]]]; simpl; discriminate.
Qed.

End ServingFacts.

(** ** The background goroutine *)

Section BackgroundFacts.
Context `{Common} `{Processors}.

Lemma step_Background (i : nat) (g : goroutine) (s : system) :
  goroutines s !! i = Some g ->
  step (Background i) s
  = withGoroutines (<[i := fst (goStep g s)]> (goroutines s))
      (snd (goStep g s))
  /\ goroutines (step (Background i) s) !! i = Some (fst (goStep g s)).
Proof.
  intros Hi. simpl. rewrite Hi.
  pose proof (goStep_goroutines g s) as Hgs.
  destruct (goStep g s) as [g' s']. simpl in *. rewrite Hgs.
  split; [reflexivity|].
  apply list_lookup_insert_eq. apply lookup_lt_Some in Hi. exact Hi.
Qed.

(** C1, on the code: when [ProcessDataResume] fails, the goroutine
    sends the error on the error channel, where [Run] receives it, and
    then goes on as after a success: it clears [processing], sets
    [done], records [PreallocationApplied] and closes the done channel. *)
Theorem failed_resume_still_reaches_done (s : system) (i : nat)
    (p : DataProcessor) (err : error) :
  goroutines s !! i = Some (GoResume p) ->
  ProcessDataResume p = Some err ->
  run s = Selecting ->
  run (exec [Background i; Background i; Background i; Background i] s)
  = Returned (Some err)
  /\ done (app (exec [Background i; Background i; Background i;
                      Background i] s)) = true
  /\ processing (app (exec [Background i; Background i; Background i;
                            Background i] s)) = false
  /\ preallocationApplied (app (exec [Background i; Background i;
                                      Background i; Background i] s))
     = PreallocationApplied p
  /\ doneChan (app (exec [Background i; Background i; Background i;
                          Background i] s)) = S (doneChan (app s))
  /\ goroutines (exec [Background i; Background i; Background i;
                       Background i] s) !! i = Some GoExited.
Proof.
  intros Hi Hfail Hrun. unfold exec. cbn [fold_left].
  destruct (step_Background i _ s Hi) as [E1 L1].
  cbn [goStep] in E1, L1. rewrite Hfail in E1, L1. cbn [fst snd] in E1, L1.
  set (s1 := step (Background i) s) in *.
  destruct (step_Background i _ s1 L1) as [E2 L2].
  assert (Hrun1 : run s1 = Selecting) by (rewrite E1; exact Hrun).
  cbn [goStep] in E2, L2. rewrite Hrun1 in E2, L2. cbn [fst snd] in E2, L2.
  set (s2 := step (Background i) s1) in *.
  destruct (step_Background i _ s2 L2) as [E3 L3].
  cbn [goStep fst snd] in E3, L3.
  set (s3 := step (Background i) s2) in *.
  destruct (step_Background i _ s3 L3) as [E4 L4].
  cbn [goStep fst snd] in E4, L4.
  set (s4 := step (Background i) s3) in *.
  split; [|split; [|split; [|split; [|split]]]].
  - rewrite E4, E3, E2. reflexivity.
  - rewrite E4, E3. reflexivity.
  - rewrite E4, E3. reflexivity.
  - rewrite E4, E3. reflexivity.
  - rewrite E4, E3, E2, E1. reflexivity.
  - exact L4.
Qed.

End BackgroundFacts.

(** ** Admissions over the life of the process *)

Section AdmissionFacts.
Context `{Common} `{Processors}.

(** C2, as the code has it: in every reachable state at most one
    admitted handler is in flight and the number of requests admitted so
    far is at most one more than the number of failed attempts; a
    request is admitted only on an idle session; and a synchronous
    upload that fails on an idle session leaves the session idle, so
    that the next POST that passes the peer check is admitted. *)
Theorem admissions_bounded_by_failures (s : system) :
  reachable s ->
  length (handlers s) <= 1
  /\ admitted s <= 1 + failed s
  /\ (forall rt r,
        admitted (step (Arrive rt r) s) = S (admitted s) ->
        phaseOf (app s) = Idle)
  /\ (forall (r r' : Request) (applied : bool) (e : error),
        Method r = MethodPost ->
        peerAccepted r (clientName (app s)) = true ->
        phaseOf (app s) = Idle ->
        uploadProcessorFunc (BodyReader (Body r)) (destination (app s))
          (imageSize (app s)) (filesystemOverhead (app s))
          (preallocation (app s))
          (HeaderGet (RequestHeader r) UploadContentTypeHeader)
          DataVolumeKubeVirt
        = (applied, Some e) ->
        Method r' = MethodPost ->
        peerAccepted r' (clientName (app s)) = true ->
        phaseOf (app (fst (serve SyncUploadPath r s))) = Idle
        /\ fst (validateShouldHandleRequest r'
                  (fst (serve SyncUploadPath r s), newResponseWriter))
           = true).
Proof.
  intros Hr. pose proof (reachable_invariant s Hr) as [Hh _ _ Hx Hn].
  split; [|split; [|split]].
  - rewrite Hh. destruct (uploading (app s)); simpl; lia.
  - lia.
  - intros rt r Hadm. simpl in Hadm.
    destruct (handlerEntry_cases rt r s newResponseWriter)
      as [[w' Heq] | [[_ [w' Heq]] | [Hidle _]]];
      [rewrite Heq in Hadm; simpl in Hadm; lia
      | rewrite Heq in Hadm; simpl in Hadm; lia
      | exact Hidle].
  - intros r r' applied e Hm Hp Hidle Hproc Hm' Hp'.
    unfold serve, ServeHTTP, uploadHandler.
    rewrite processUpload_admitted by assumption.
    rewrite processUploadAdmitted_eq. simpl. rewrite Hproc. simpl.
    apply phaseOf_Idle in Hidle as (Hu & Hpr & Hd).
    assert (Hidle' : phaseOf
              (setUploading false (lockMutex (setPreallocationApplied applied
                 (setUploading true (lockMutex (app s)))))) = Idle).
    { apply phaseOf_Idle. simpl. auto. }
    split; [exact Hidle'|].
    rewrite validate_admits_idle; [reflexivity | assumption | exact Hp'
                                  | exact Hidle'].
Qed.

End AdmissionFacts.

(** ** The properties on the sample values *)

Lemma sample_reachable_afterUpload :
  @reachable sampleCommon succeedingProcessors afterUpload.
Proof.
  exists "/dev/cdi-block-volume", "client-A", "1Gi", 0.5%float, false,
    [Arrive SyncUploadPath plainPost; Proceed 0].
  reflexivity.
Defined.

Lemma sample_reachable_afterFailedUpload :
  @reachable sampleCommon failingProcessors afterFailedUpload.
Proof.
  exists "/dev/cdi-block-volume", "client-A", "1Gi", 0.5%float, false,
    [Arrive SyncUploadPath plainPost; Proceed 0].
  reflexivity.
Defined.

Lemma sample_reachable_retryAfterFailure :
  @reachable sampleCommon failingProcessors retryAfterFailure.
Proof.
  exists "/dev/cdi-block-volume", "client-A", "1Gi", 0.5%float, false,
    [Arrive SyncUploadPath plainPost; Proceed 0;
     Arrive SyncUploadPath plainPost].
  reflexivity.
Defined.

Lemma phaseCheck_by_phase_sample :
  validateShouldHandleRequest plainPost
    (startSystem sampleServer, newResponseWriter)
  = phaseCheck (startSystem sampleServer, newResponseWriter).
Proof.
  apply (proj2 (proj2 (phaseCheck_by_phase (startSystem sampleServer)
                         newResponseWriter))).
  - reflexivity.
  - reflexivity.
Defined.

Lemma head_on_async_path_is_a_probe_sample :
  @uploadHandlerAsync sampleCommon succeedingProcessors bodyReadCloser
    plainHead (afterUpload, newResponseWriter)
  = (tt, (afterUpload, writeHeader StatusOK newResponseWriter)).
Proof.
  apply (proj1 (@head_on_async_path_is_a_probe sampleCommon
                  succeedingProcessors bodyReadCloser plainHead afterUpload
                  eq_refl)).
Defined.

Lemma peer_mismatch_rejected_before_phase_check_sample :
  validateShouldHandleRequest strangerPost
    (startSystem sampleServer, newResponseWriter)
  = (false, (startSystem sampleServer,
             writeHeader StatusUnauthorized newResponseWriter))
  /\ validateShouldHandleRequest strangerGet
       (startSystem sampleServer, newResponseWriter)
     = (false, (startSystem sampleServer,
                writeHeader StatusNotFound newResponseWriter)).
Proof.
  pose proof (@peer_mismatch_rejected_before_phase_check sampleCommon
                succeedingProcessors strangerPost
                {| PeerCertificates :=
                     [{| SubjectCommonName := "client-B" |}] |}
                (startSystem sampleServer) newResponseWriter
                eq_refl eq_refl
                ltac:(intros cert [<- | []]; simpl; discriminate))
    as (Hpost & _ & Hother).
  split; [exact Hpost|].
  apply Hother. simpl. discriminate.
Defined.

Lemma sync_size_validation_error_answered_500_sample :
  headerCalls (snd (@serve sampleCommon sizeErrorProcessors SyncUploadPath
                      plainPost (startSystem sampleServer)))
  = [StatusInternalServerError]
  /\ responseStatus (snd (@serve sampleCommon sizeErrorProcessors
                            SyncUploadPath plainPost
                            (startSystem sampleServer)))
     = StatusInternalServerError.
Proof.
  apply (@sync_size_validation_error_answered_500 sampleCommon
           sizeErrorProcessors plainPost (startSystem sampleServer) false
           (ValidationSizeError "image larger than volume")).
  - reflexivity.
  - reflexivity.
  - reflexivity.
  - reflexivity.
  - reflexivity.
Defined.

Lemma failed_body_extraction_is_not_a_return_sample :
  headerCalls (snd (@serve sampleCommon failingProcessors SyncUploadFormPath
                      formWithoutFile (startSystem sampleServer)))
  = [StatusBadRequest; StatusInternalServerError]
  /\ processorCalls (fst (@serve sampleCommon failingProcessors
                            SyncUploadFormPath formWithoutFile
                            (startSystem sampleServer)))
     = ([] ++ [NilReadCloser])%list
  /\ responseStatus (snd (@serve sampleCommon failingProcessors
                            SyncUploadFormPath formWithoutFile
                            (startSystem sampleServer)))
     = StatusBadRequest.
Proof.
  apply (proj1 (@failed_body_extraction_is_not_a_return sampleCommon
                  failingProcessors formWithoutFile
                  (startSystem sampleServer) EOF
                  eq_refl eq_refl eq_refl eq_refl)
           false (ErrorString "no space left on device")).
  reflexivity.
Defined.

Lemma done_is_terminal_sample :
  done (app (@exec sampleCommon succeedingProcessors
               [Arrive AsyncUploadPath plainPost] afterUpload)) = true.
Proof.
  apply (proj1 (@done_is_terminal sampleCommon succeedingProcessors
                  afterUpload [Arrive AsyncUploadPath plainPost]
                  sample_reachable_afterUpload eq_refl)).
Defined.

Lemma failed_resume_still_reaches_done_sample :
  run (@exec sampleCommon resumeFailingProcessors
         [Background 0; Background 0; Background 0; Background 0]
         afterAsyncAccepted)
  = Returned (Some (ErrorString "unexpected EOF"))
  /\ done (app (@exec sampleCommon resumeFailingProcessors
                  [Background 0; Background 0; Background 0; Background 0]
                  afterAsyncAccepted)) = true
  /\ processing (app (@exec sampleCommon resumeFailingProcessors
                        [Background 0; Background 0; Background 0;
                         Background 0] afterAsyncAccepted)) = false
  /\ preallocationApplied
       (app (@exec sampleCommon resumeFailingProcessors
               [Background 0; Background 0; Background 0; Background 0]
               afterAsyncAccepted)) = true
  /\ doneChan (app (@exec sampleCommon resumeFailingProcessors
                      [Background 0; Background 0; Background 0;
                       Background 0] afterAsyncAccepted)) = 1
  /\ goroutines (@exec sampleCommon resumeFailingProcessors
                   [Background 0; Background 0; Background 0; Background 0]
                   afterAsyncAccepted) !! 0 = Some GoExited.
Proof.
  exact (@failed_resume_still_reaches_done sampleCommon
           resumeFailingProcessors afterAsyncAccepted 0
           (pausedProcessor (Some (ErrorString "unexpected EOF")))
           (ErrorString "unexpected EOF")
           eq_refl eq_refl eq_refl).
Defined.

(** After one failed upload and the admission of the retry: two
    requests admitted, one failed attempt, one handler in flight; and
    from the state left by the failed upload, a second failing upload
    leaves the session idle and the next POST is admitted. *)
Lemma admissions_bounded_by_failures_sample :
  (length (handlers retryAfterFailure) <= 1
   /\ admitted retryAfterFailure <= 1 + failed retryAfterFailure
   /\ admitted retryAfterFailure = 2
   /\ failed retryAfterFailure = 1
   /\ length (handlers retryAfterFailure) = 1)
  /\ (phaseOf (app (fst (@serve sampleCommon failingProcessors
                           SyncUploadPath plainPost afterFailedUpload)))
      = Idle
      /\ fst (validateShouldHandleRequest plainPost
                (fst (@serve sampleCommon failingProcessors SyncUploadPath
                        plainPost afterFailedUpload), newResponseWriter))
         = true).
Proof.
  split.
  - pose proof (@admissions_bounded_by_failures sampleCommon
                  failingProcessors retryAfterFailure
                  sample_reachable_retryAfterFailure)
      as (Hflight & Hbound & _).
    split; [exact Hflight | split; [exact Hbound|]].
    split; [reflexivity | split; reflexivity].
  - pose proof (@admissions_bounded_by_failures sampleCommon
                  failingProcessors afterFailedUpload
                  sample_reachable_afterFailedUpload)
      as (_ & _ & _ & Hretry).
    apply (Hretry plainPost plainPost false
             (ErrorString "no space left on device"));
      reflexivity.
Defined.

(** ** Where the stated properties fail *)

(** C2 as stated fails: after a synchronous upload that failed with
    500, the same request is admitted again; two requests have then been
    admitted and the session is uploading. *)
Lemma second_request_admitted_after_failure :
  map responseStatus (responses retryAfterFailure)
  = [StatusInternalServerError]
  /\ admitted retryAfterFailure = 2
  /\ phaseOf (app retryAfterFailure) = Uploading
  /\ ~ (admitted retryAfterFailure <= 1).
Proof.
  split; [reflexivity | split; [reflexivity | split; [reflexivity|]]].
  vm_compute. lia.
Qed.

(** C5 as stated fails: on a session that is done, a POST from a peer
    whose certificate does not carry the expected name is answered 401,
    not 409. *)
Lemma stranger_after_done_answered_401 :
  done (app afterUpload) = true
  /\ Method strangerPost = MethodPost
  /\ responseStatus (snd (@serve sampleCommon succeedingProcessors
                            SyncUploadPath strangerPost afterUpload))
     = StatusUnauthorized
  /\ responseStatus (snd (@serve sampleCommon succeedingProcessors
                            SyncUploadPath strangerPost afterUpload))
     <> StatusConflict.
Proof.
  split; [reflexivity | split; [reflexivity | split; [reflexivity|]]].
  vm_compute. discriminate.
Qed.

(** C10 as stated fails: in the asynchronous handler the second
    status, written after the 400 for the form without a "file" part, is
    400 again when the processor function fails with a size validation
    error. *)
Lemma async_second_status_400_for_size_error :
  headerCalls (snd (@serve sampleCommon sizeErrorProcessors
                      AsyncUploadFormPath formWithoutFile
                      (startSystem sampleServer)))
  = [StatusBadRequest; StatusBadRequest]
  /\ processorCalls (fst (@serve sampleCommon sizeErrorProcessors
                            AsyncUploadFormPath formWithoutFile
                            (startSystem sampleServer)))
     = [NilReadCloser]
  /\ nth 1 (headerCalls (snd (@serve sampleCommon sizeErrorProcessors
                                AsyncUploadFormPath formWithoutFile
                                (startSystem sampleServer)))) 0%Z
     <> StatusInternalServerError.
Proof.
  split; [reflexivity | split; [reflexivity|]].
  vm_compute. discriminate.
Qed.

(* ================================================================= *)
(** * Further properties *)

(** ** The archive extractor on other inputs *)

Section ExtractorEdges.
Context `{Common}.

Lemma untarLoop_at_match (pre post : list (option Header * list byte))
    (header : Header) (payload : list byte) (last : error) (dest : string)
    (fs : filesystem) :
  forallb passedOver pre = true ->
  Contains (Name header) DiskImageName = true ->
  isRegOrSparse (Typeflag header) = true ->
  untarLoop (pre ++ (Some header, payload) :: post)%list last dest fs
  = match fs !! dest with
    | None => (Some (ErrorString ("open " ++ dest)), fs)
    | Some old =>
        (snd (CopyN payload (entryEnd (Size header) payload) (Size header)),
         <[dest := (old ++ fst (CopyN payload
                                  (entryEnd (Size header) payload)
                                  (Size header)))%list]> fs)
    end.
Proof.
  intros Hpre Hname Htype.
  rewrite untarLoop_passedOver by exact Hpre.
  simpl. rewrite Hname, Htype. simpl.
  destruct (fs !! dest) as [old|]; [|reflexivity].
  destruct (CopyN payload _ (Size header)) as [copied [e|]]; reflexivity.
Qed.

Lemma CopyN_copied (src : list byte) (srcEnd : error) (n : Z) :
  fst (CopyN src srcEnd n) = take (Z.to_nat n) src.
Proof.
  unfold CopyN.
  destruct (Z.of_nat (length (take (Z.to_nat n) src)) =? n)%Z; [reflexivity|].
  destruct (Z.of_nat (length (take (Z.to_nat n) src)) <? n)%Z;
    [|reflexivity].
  destruct (isEOF srcEnd); reflexivity.
Qed.

Lemma untarLoop_only_appends (entries : list (option Header * list byte))
    (last : error) (dest : string) (fs : filesystem) :
  (forall path, path <> dest ->
     snd (untarLoop entries last dest fs) !! path = fs !! path)
  /\ (fs !! dest = None -> snd (untarLoop entries last dest fs) = fs)
  /\ (forall old, fs !! dest = Some old ->
        exists added,
          snd (untarLoop entries last dest fs) !! dest
          = Some (old ++ added)%list
          /\ (added = [] \/
              exists h payload,
                In (Some h, payload) entries
                /\ Contains (Name h) DiskImageName = true
                /\ isRegOrSparse (Typeflag h) = true
                /\ added = take (Z.to_nat (Size h)) payload)).
Proof.
  induction entries as [|[[h|] payload] entries IH].
  - simpl.
    assert (Hsame : snd (if isEOF last then (None, fs) else (Some last, fs))
                    = fs) by (destruct (isEOF last); reflexivity).
    rewrite Hsame. split; [intros; reflexivity | split; [reflexivity|]].
    intros old Hold. exists []. rewrite app_nil_r.
    split; [exact Hold | left; reflexivity].
  - destruct IH as (IH1 & IH2 & IH3).
    assert (Hskip :
      (forall path, path <> dest ->
         snd (untarLoop entries last dest fs) !! path = fs !! path)
      /\ (fs !! dest = None -> snd (untarLoop entries last dest fs) = fs)
      /\ (forall old, fs !! dest = Some old ->
            exists added,
              snd (untarLoop entries last dest fs) !! dest
              = Some (old ++ added)%list
              /\ (added = [] \/
                  exists h' payload',
                    In (Some h', payload') ((Some h, payload) :: entries)
                    /\ Contains (Name h') DiskImageName = true
                    /\ isRegOrSparse (Typeflag h') = true
                    /\ added = take (Z.to_nat (Size h')) payload'))).
    { split; [exact IH1 | split; [exact IH2|]].
      intros old Hold. destruct (IH3 old Hold) as (added & Hl & Hadded).
      exists added. split; [exact Hl|].
      destruct Hadded as [-> | (h' & p' & Hin & Hrest)]; [left; reflexivity|].
      right. exists h', p'. split; [right; exact Hin | exact Hrest]. }
    simpl.
    destruct (Contains (Name h) DiskImageName) eqn:Hname; simpl;
      [|exact Hskip].
    destruct (isRegOrSparse (Typeflag h)) eqn:Htype; [|exact Hskip].
    destruct (fs !! dest) as [old|] eqn:Hdest.
    + pose proof (CopyN_copied payload (entryEnd (Size h) payload) (Size h))
        as Hcopied.
      destruct (CopyN payload _ (Size h)) as [copied err]. simpl in Hcopied.
      assert (Hsnd : snd (match err with
                          | Some e => (Some e, <[dest:=(old ++ copied)%list]> fs)
                          | None => (None, <[dest:=(old ++ copied)%list]> fs)
                          end) = <[dest:=(old ++ copied)%list]> fs)
        by (destruct err; reflexivity).
      rewrite Hsnd. split; [|split].
      * intros path Hne. apply lookup_insert_ne. congruence.
      * discriminate.
      * intros old' Hold'. injection Hold' as <-.
        exists copied. split; [apply lookup_insert_eq|].
        right. exists h, payload. rewrite Hcopied.
        repeat split; auto; left; reflexivity.
    + simpl. split; [intros; reflexivity | split; [reflexivity|]].
      intros old Hold. discriminate Hold.
  - destruct IH as (IH1 & IH2 & IH3). simpl.
    split; [exact IH1 | split; [exact IH2|]].
    intros old Hold. destruct (IH3 old Hold) as (added & Hl & Hadded).
    exists added. split; [exact Hl|].
    destruct Hadded as [-> | (h' & p' & Hin & Hrest)]; [left; reflexivity|].
    right. exists h', p'. split; [right; exact Hin | exact Hrest].
Qed.

(** X1: whatever the archive, [untarToBlockdev] changes no file but
    the destination, does not create the destination when it is
    missing, and only appends to it: the old bytes stay, followed by
    nothing or by the first [Size] bytes of the payload of one regular
    or sparse entry whose name contains the disk image name. *)
Theorem untarToBlockdev_only_appends_to_dest (stream : tarReader)
    (dest : string) (fs : filesystem) :
  (forall path, path <> dest ->
     snd (untarToBlockdev stream dest fs) !! path = fs !! path)
  /\ (fs !! dest = None -> snd (untarToBlockdev stream dest fs) = fs)
  /\ (forall old, fs !! dest = Some old ->
        exists added,
          snd (untarToBlockdev stream dest fs) !! dest
          = Some (old ++ added)%list
          /\ (added = [] \/
              exists h payload,
                In (Some h, payload) (tarEntries stream)
                /\ Contains (Name h) DiskImageName = true
                /\ isRegOrSparse (Typeflag h) = true
                /\ added = take (Z.to_nat (Size h)) payload)).
Proof.
  destruct stream as [entries last]. unfold untarToBlockdev. simpl.
  destruct (untarLoop_only_appends entries last dest fs) as (Hother & Hnone & Hsome).
  split; [exact Hother | split; [exact Hnone | exact Hsome]].
Qed.

(** X2: an archive in which no entry is a regular or sparse file
    with the disk image name in its name leaves every file as it was;
    the result is nil when the archive ends with [io.EOF], and the error
    of the tar reader otherwise. *)
Theorem untarToBlockdev_without_image (stream : tarReader) (dest : string)
    (fs : filesystem) :
  forallb passedOver (tarEntries stream) = true ->
  untarToBlockdev stream dest fs
  = (if isEOF (tarEnd stream) then None else Some (tarEnd stream), fs).
Proof.
  intros Hall. unfold untarToBlockdev.
  rewrite <- (app_nil_r (tarEntries stream)).
  rewrite untarLoop_passedOver by exact Hall. simpl.
  destruct (isEOF (tarEnd stream)); reflexivity.
Qed.

(** X3: when the stream runs out inside the first matching entry,
    so that the tar reader yields fewer bytes than the header announces
    and then [io.ErrUnexpectedEOF], the bytes there are are appended to
    the destination all the same, and [untarToBlockdev] returns
    [io.ErrUnexpectedEOF]. *)
Theorem untarToBlockdev_truncated_entry
    (pre post : list (option Header * list byte)) (header : Header)
    (payload : list byte) (last : error) (dest : string)
    (fs : filesystem) (old : list byte) :
  forallb passedOver pre = true ->
  Contains (Name header) DiskImageName = true ->
  isRegOrSparse (Typeflag header) = true ->
  fs !! dest = Some old ->
  (Z.of_nat (length payload) < Size header)%Z ->
  untarToBlockdev
    {| tarEntries := (pre ++ (Some header, payload) :: post)%list;
       tarEnd := last |} dest fs
  = (Some ErrUnexpectedEOF, <[dest := (old ++ payload)%list]> fs)
  /\ Error ErrUnexpectedEOF = "unexpected EOF"
  /\ isEOF ErrUnexpectedEOF = false.
Proof.
  intros Hpre Hname Htype Hdest Hshort.
  split; [|split; reflexivity].
  unfold untarToBlockdev. simpl.
  rewrite untarLoop_at_match by assumption. rewrite Hdest.
  assert (Htake : take (Z.to_nat (Size header)) payload = payload)
    by (apply take_ge; lia).
  assert (Hend : entryEnd (Size header) payload = ErrUnexpectedEOF).
  { unfold entryEnd.
    destruct (Z.ltb_spec (Z.of_nat (length payload)) (Size header));
      [reflexivity | lia]. }
  rewrite Hend. unfold CopyN. rewrite Htake.
  destruct (Z.eqb_spec (Z.of_nat (length payload)) (Size header)); [lia|].
  destruct (Z.ltb_spec (Z.of_nat (length payload)) (Size header)); [|lia].
  reflexivity.
Qed.

(** X4: when the destination does not exist, the first matching
    entry makes [untarToBlockdev] fail, and no file is created or
    changed. *)
Theorem untarToBlockdev_missing_destination
    (pre post : list (option Header * list byte)) (header : Header)
    (payload : list byte) (last : error) (dest : string)
    (fs : filesystem) :
  forallb passedOver pre = true ->
  Contains (Name header) DiskImageName = true ->
  isRegOrSparse (Typeflag header) = true ->
  fs !! dest = None ->
  exists err,
    untarToBlockdev
      {| tarEntries := (pre ++ (Some header, payload) :: post)%list;
         tarEnd := last |} dest fs
    = (Some err, fs).
Proof.
  intros Hpre Hname Htype Hdest.
  unfold untarToBlockdev. simpl.
  rewrite untarLoop_at_match by assumption. rewrite Hdest.
  eexists. reflexivity.
Qed.

End ExtractorEdges.

Lemma untarToBlockdev_only_appends_to_dest_sample :
  snd (@untarToBlockdev sampleCommon sampleArchive "/dev/cdi-block-volume"
         (∅ : filesystem)) = (∅ : filesystem).
Proof.
  apply (proj1 (proj2 (@untarToBlockdev_only_appends_to_dest sampleCommon
                         sampleArchive "/dev/cdi-block-volume" ∅))).
  reflexivity.
Defined.

Lemma untarToBlockdev_without_image_sample :
  @untarToBlockdev sampleCommon archiveWithoutImage "/dev/cdi-block-volume"
    sampleDisk
  = (None, sampleDisk).
Proof.
  apply (@untarToBlockdev_without_image sampleCommon archiveWithoutImage
           "/dev/cdi-block-volume" sampleDisk).
  reflexivity.
Defined.

Lemma untarToBlockdev_truncated_entry_sample :
  @untarToBlockdev sampleCommon truncatedArchive "/dev/cdi-block-volume"
    sampleDisk
  = (Some (ErrorString "unexpected EOF"),
     <["/dev/cdi-block-volume" := [x00; x01; x02]]> sampleDisk).
Proof.
  apply (@untarToBlockdev_truncated_entry sampleCommon [] []
           {| Name := "disk.img"; Typeflag := TypeReg; Size := 5 |}
           [x01; x02] (ErrorString "unexpected EOF")
           "/dev/cdi-block-volume" sampleDisk [x00]).
  - reflexivity.
  - reflexivity.
  - reflexivity.
  - reflexivity.
  - simpl. lia.
Defined.

Lemma untarToBlockdev_missing_destination_sample :
  exists err,
    @untarToBlockdev sampleCommon sampleArchive "/dev/cdi-block-volume"
      (∅ : filesystem)
    = (Some err, (∅ : filesystem)).
Proof.
  apply (@untarToBlockdev_missing_destination sampleCommon
           [(Some {| Name := "metadata.json"; Typeflag := TypeReg;
                     Size := 2 |}, [x7b; x7d])]
           [(Some {| Name := "disk.img.bak"; Typeflag := TypeReg;
                     Size := 2 |}, [x09; x09])]
           {| Name := "disk.img"; Typeflag := TypeReg; Size := 3 |}
           [x01; x02; x03] EOF "/dev/cdi-block-volume" ∅).
  - reflexivity.
  - reflexivity.
  - reflexivity.
  - reflexivity.
Defined.

(** ** The multipart form reader *)

Lemma nextFilePart_first (pre post : list Part) (p : Part) (last : error) :
  forallb (fun q => negb (String.eqb (FormName q) "file")) pre = true ->
  FormName p = "file" ->
  nextFilePart (pre ++ p :: post)%list last = (PartReader p, None).
Proof.
  intros Hpre Hp. induction pre as [|q pre IH]; simpl.
  - rewrite Hp. reflexivity.
  - simpl in Hpre. apply andb_true_iff in Hpre as [Hq Hpre].
    apply negb_true_iff in Hq. rewrite Hq. apply IH. exact Hpre.
Qed.

Lemma nextFilePart_shape (parts : list Part) (last : error) :
  nextFilePart parts last = (NilReadCloser, Some last)
  /\ forallb (fun q => negb (String.eqb (FormName q) "file")) parts = true
  \/ exists p, nextFilePart parts last = (PartReader p, None)
               /\ FormName p = "file" /\ In p parts.
Proof.
  induction parts as [|q parts IH]; simpl.
  - left. split; reflexivity.
  - destruct (String.eqb_spec (FormName q) "file") as [Hq|Hq]; simpl.
    + right. exists q. repeat split; auto.
    + destruct IH as [[Hnil Hall] | (p & Hp & Hname & Hin)].
      * left. split; assumption.
      * right. exists p. repeat split; auto.
Qed.

(** X5: [formReadCloser] gives the first part whose field name is
    "file": the parts before it are passed over, and the parts after it,
    other "file" parts among them, are never looked at; the form handler
    then hands this very part to the processor function. *)
Theorem formReadCloser_first_file_part `{Common} `{Processors}
    (r : Request) (pre post : list Part) (p : Part) (last : error) :
  MultipartReader r
  = inr {| formParts := (pre ++ p :: post)%list; formEnd := last |} ->
  forallb (fun q => negb (String.eqb (FormName q) "file")) pre = true ->
  FormName p = "file" ->
  formReadCloser r = (PartReader p, None)
  /\ (forall s : system,
        Method r = MethodPost ->
        peerAccepted r (clientName (app s)) = true ->
        phaseOf (app s) = Idle ->
        processorCalls (fst (serve SyncUploadFormPath r s))
        = (processorCalls s ++ [PartReader p])%list
        /\ processorCalls (fst (serve AsyncUploadFormPath r s))
           = (processorCalls s ++ [PartReader p])%list).
Proof.
  intros Hform Hpre Hp.
  assert (Hread : formReadCloser r = (PartReader p, None)).
  { unfold formReadCloser. rewrite Hform. simpl.
    apply nextFilePart_first; assumption. }
  split; [exact Hread|].
  intros s Hm Hpeer Hidle. split.
  - unfold serve, ServeHTTP, uploadHandler.
    rewrite processUpload_admitted by assumption.
    rewrite processUploadAdmitted_eq. rewrite Hread. simpl.
    destruct (uploadProcessorFunc _ _ _ _ _ _ _) as [applied [e|]];
      reflexivity.
  - unfold serve, ServeHTTP.
    rewrite uploadHandlerAsync_admitted by assumption.
    rewrite uploadHandlerAsyncAdmitted_eq. rewrite Hread. simpl.
    destruct (uploadProcessorFuncAsync _ _ _ _ _ _) as [processor [e|]];
      reflexivity.
Qed.

(** X6: [formReadCloser] returns the nil reader exactly when it
    returns an error.  A request that is not multipart gets the error of
    [MultipartReader]; a form without a "file" part gets the error on
    which [NextPart] stopped, [io.EOF] for a form read to its end; and a
    reader that is returned is a part named "file" of the form. *)
Theorem formReadCloser_nil_exactly_on_error (r : Request) :
  match formReadCloser r with
  | (NilReadCloser, Some _) => True
  | (PartReader p, None) => FormName p = "file"
  | _ => False
  end
  /\ (forall err, MultipartReader r = inl err ->
        formReadCloser r = (NilReadCloser, Some err))
  /\ (forall mr, MultipartReader r = inr mr ->
        forallb (fun q => negb (String.eqb (FormName q) "file"))
          (formParts mr) = true ->
        formReadCloser r = (NilReadCloser, Some (formEnd mr)))
  /\ (forall mr p, MultipartReader r = inr mr ->
        fst (formReadCloser r) = PartReader p ->
        In p (formParts mr)).
Proof.
  unfold formReadCloser.
  destruct (MultipartReader r) as [err|mr].
  - split; [exact I|]. split; [|split].
    + intros err' Heq. injection Heq as <-. reflexivity.
    + intros mr Heq. discriminate Heq.
    + intros mr p Heq. discriminate Heq.
  - destruct (nextFilePart_shape (formParts mr) (formEnd mr))
      as [[Hnil Hall] | (p & Hp & Hname & Hin)].
    + rewrite Hnil. split; [exact I|]. split; [|split].
      * intros err Heq. discriminate Heq.
      * intros mr' Heq _. injection Heq as <-. reflexivity.
      * intros mr' p _ Hfst. simpl in Hfst. discriminate Hfst.
    + rewrite Hp. split; [exact Hname|]. split; [|split].
      * intros err Heq. discriminate Heq.
      * intros mr' Heq Hall. injection Heq as <-.
        exfalso. rewrite forallb_forall in Hall.
        specialize (Hall p Hin). rewrite Hname in Hall. discriminate Hall.
      * intros mr' p' Heq Hfst. injection Heq as <-. simpl in Hfst.
        injection Hfst as <-. exact Hin.
Qed.

Lemma formReadCloser_first_file_part_sample :
  formReadCloser formWithTwoFiles
  = (PartReader {| FormName := "file"; partData := [x01] |}, None).
Proof.
  apply (proj1 (@formReadCloser_first_file_part sampleCommon
                  succeedingProcessors formWithTwoFiles
                  [{| FormName := "note"; partData := [x68; x69] |}]
                  [{| FormName := "file"; partData := [x02] |}]
                  {| FormName := "file"; partData := [x01] |} EOF
                  eq_refl eq_refl eq_refl)).
Defined.

Lemma formReadCloser_nil_exactly_on_error_sample :
  formReadCloser formWithoutFile = (NilReadCloser, Some EOF).
Proof.
  apply (proj1 (proj2 (proj2 (formReadCloser_nil_exactly_on_error
                                formWithoutFile)))
           {| formParts := [{| FormName := "note"; partData := [x68; x69] |}];
              formEnd := EOF |}).
  - reflexivity.
  - reflexivity.
Defined.

(** ** Uploads that succeed, and uploads that fail *)

Section Outcomes.
Context `{Common} `{Processors}.

(** X7: a synchronous upload that is admitted, reads its body and
    whose processor function returns no error: the handler writes no
    status, so the client gets 200; the session is done, with the
    preallocation outcome of the processor function; the done channel is
    closed by this handler, no goroutine is started, and [Run], still in
    its [select], then returns nil. *)
Theorem sync_upload_success (irc : imageReadCloser) (r : Request)
    (dv : DataVolumeContentType) (s : system) (applied : bool) :
  Method r = MethodPost ->
  peerAccepted r (clientName (app s)) = true ->
  phaseOf (app s) = Idle ->
  snd (irc r) = None ->
  uploadProcessorFunc (fst (irc r)) (destination (app s))
    (imageSize (app s)) (filesystemOverhead (app s)) (preallocation (app s))
    (HeaderGet (RequestHeader r) UploadContentTypeHeader) dv
  = (applied, None) ->
  run s = Selecting ->
  let st := snd (processUpload irc r dv (s, newResponseWriter)) in
  headerCalls (snd st) = []
  /\ responseStatus (snd st) = StatusOK
  /\ phaseOf (app (fst st)) = Done
  /\ preallocationApplied (app (fst st)) = applied
  /\ doneChan (app (fst st)) = S (doneChan (app s))
  /\ goroutines (fst st) = goroutines s
  /\ run (step SelectDone (fst st)) = Returned None.
Proof.
  intros Hm Hpeer Hidle Hirc Hproc Hrun.
  rewrite processUpload_admitted by assumption.
  rewrite processUploadAdmitted_eq. rewrite Hirc. simpl.
  rewrite Hproc. simpl.
  apply phaseOf_Idle in Hidle as (Hu & Hp & Hd).
  repeat split.
  - unfold phaseOf. simpl. rewrite Hp. reflexivity.
  - rewrite Hrun. reflexivity.
Qed.

(** X8: a synchronous upload that is admitted, reads its body and
    whose processor function fails: the client gets 500 with an empty
    body; the session is idle again; the preallocation flag returned
    with the error is stored all the same; and nothing reaches [Run]:
    the done channel stays as it was and [Run] stays in its [select]. *)
Theorem sync_upload_failure (irc : imageReadCloser) (r : Request)
    (dv : DataVolumeContentType) (s : system) (applied : bool) (e : error) :
  Method r = MethodPost ->
  peerAccepted r (clientName (app s)) = true ->
  phaseOf (app s) = Idle ->
  snd (irc r) = None ->
  uploadProcessorFunc (fst (irc r)) (destination (app s))
    (imageSize (app s)) (filesystemOverhead (app s)) (preallocation (app s))
    (HeaderGet (RequestHeader r) UploadContentTypeHeader) dv
  = (applied, Some e) ->
  let st := snd (processUpload irc r dv (s, newResponseWriter)) in
  headerCalls (snd st) = [StatusInternalServerError]
  /\ bodyText (snd st) = ""
  /\ phaseOf (app (fst st)) = Idle
  /\ preallocationApplied (app (fst st)) = applied
  /\ doneChan (app (fst st)) = doneChan (app s)
  /\ run (fst st) = run s
  /\ goroutines (fst st) = goroutines s.
Proof.
  intros Hm Hpeer Hidle Hirc Hproc.
  rewrite processUpload_admitted by assumption.
  rewrite processUploadAdmitted_eq. rewrite Hirc. simpl.
  rewrite Hproc. simpl.
  apply phaseOf_Idle in Hidle as (Hu & Hp & Hd).
  repeat split.
  unfold phaseOf. simpl. rewrite Hp, Hd. reflexivity.
Qed.

(** X9: an asynchronous upload that is admitted, reads its body and
    whose processor function fails before the pause: the client gets 400
    for a size validation error and 500 otherwise, with the message
    "Saving stream failed: " and the text of the error as body; the
    session is idle again, no goroutine is started, and the done channel
    and [Run] are as they were. *)
Theorem async_upload_rejected_at_start (irc : imageReadCloser) (r : Request)
    (s : system) (processor : DataProcessor) (e : error) :
  Method r = MethodPost ->
  peerAccepted r (clientName (app s)) = true ->
  phaseOf (app s) = Idle ->
  snd (irc r) = None ->
  uploadProcessorFuncAsync (fst (irc r)) (destination (app s))
    (imageSize (app s)) (filesystemOverhead (app s)) (preallocation (app s))
    (HeaderGet (RequestHeader r) UploadContentTypeHeader)
  = (processor, Some e) ->
  let st := snd (uploadHandlerAsync irc r (s, newResponseWriter)) in
  headerCalls (snd st)
  = [if errorsAsValidationSizeError e
     then StatusBadRequest else StatusInternalServerError]
  /\ bodyText (snd st) = "Saving stream failed: " ++ Error e
  /\ phaseOf (app (fst st)) = Idle
  /\ goroutines (fst st) = goroutines s
  /\ doneChan (app (fst st)) = doneChan (app s)
  /\ run (fst st) = run s.
Proof.
  intros Hm Hpeer Hidle Hirc Hproc.
  rewrite uploadHandlerAsync_admitted by assumption.
  rewrite uploadHandlerAsyncAdmitted_eq. rewrite Hirc. simpl.
  rewrite Hproc. simpl.
  apply phaseOf_Idle in Hidle as (Hu & Hp & Hd).
  repeat split.
  unfold phaseOf. simpl. rewrite Hp, Hd. reflexivity.
Qed.

(** X10: an asynchronous upload that is admitted, reads its body and
    whose processor pauses without error: the client gets 200 at once,
    the session is processing and one goroutine is started; when
    [ProcessDataResume] then returns no error, three steps of that
    goroutine leave the session done with the preallocation outcome of
    the processor and the done channel closed, nothing having been sent
    to [Run], which then returns nil from its [select]. *)
Theorem async_upload_success (irc : imageReadCloser) (r : Request)
    (s : system) (p : DataProcessor) :
  Method r = MethodPost ->
  peerAccepted r (clientName (app s)) = true ->
  phaseOf (app s) = Idle ->
  snd (irc r) = None ->
  uploadProcessorFuncAsync (fst (irc r)) (destination (app s))
    (imageSize (app s)) (filesystemOverhead (app s)) (preallocation (app s))
    (HeaderGet (RequestHeader r) UploadContentTypeHeader)
  = (p, None) ->
  ProcessDataResume p = None ->
  run s = Selecting ->
  let st := snd (uploadHandlerAsync irc r (s, newResponseWriter)) in
  let i := length (goroutines s) in
  let s' := exec [Background i; Background i; Background i] (fst st) in
  headerCalls (snd st) = []
  /\ responseStatus (snd st) = StatusOK
  /\ phaseOf (app (fst st)) = Processing
  /\ goroutines (fst st) = (goroutines s ++ [GoResume p])%list
  /\ phaseOf (app s') = Done
  /\ preallocationApplied (app s') = PreallocationApplied p
  /\ doneChan (app s') = S (doneChan (app s))
  /\ run s' = Selecting
  /\ run (step SelectDone s') = Returned None.
Proof.
  intros Hm Hpeer Hidle Hirc Hproc Hresume Hrun.
  assert (Hst :
    snd (uploadHandlerAsync irc r (s, newResponseWriter))
    = (withGoroutines (goroutines s ++ [GoResume p])%list
         (withApp (setProcessing true (setUploading false
                     (lockMutex (setUploading true (lockMutex (app s))))))
            (withProcessorCalls (processorCalls s ++ [fst (irc r)])%list s)),
       newResponseWriter)).
  { rewrite uploadHandlerAsync_admitted by assumption.
    rewrite uploadHandlerAsyncAdmitted_eq. rewrite Hirc. simpl.
    rewrite Hproc. reflexivity. }
  cbv zeta. rewrite Hst. cbn [fst snd].
  apply phaseOf_Idle in Hidle as (Hu & Hp & Hd).
  set (s1 := withGoroutines _ _).
  assert (L0 : goroutines s1 !! length (goroutines s) = Some (GoResume p)).
  { subst s1. simpl. apply list_lookup_middle. reflexivity. }
  unfold exec. cbn [fold_left].
  destruct (step_Background _ _ s1 L0) as [E1 L1].
  cbn [goStep] in E1, L1. rewrite Hresume in E1, L1. cbn [fst snd] in E1, L1.
  set (s2 := step (Background (length (goroutines s))) s1) in *.
  destruct (step_Background _ _ s2 L1) as [E2 L2].
  cbn [goStep fst snd] in E2, L2.
  set (s3 := step (Background (length (goroutines s))) s2) in *.
  destruct (step_Background _ _ s3 L2) as [E3 L3].
  cbn [goStep fst snd] in E3, L3.
  set (s4 := step (Background (length (goroutines s))) s3) in *.
  assert (Happ : app s4
                 = closeDoneChan
                     (setPreallocationApplied (PreallocationApplied p)
                        (setDone true (setProcessing false
                           (lockMutex (app s1)))))).
  { rewrite E3, E2, E1. reflexivity. }
  assert (Hrun4 : run s4 = Selecting).
  { rewrite E3, E2, E1. subst s1. simpl. exact Hrun. }
  split; [reflexivity|]. split; [reflexivity|].
  split; [subst s1; unfold phaseOf; simpl; reflexivity|].
  split; [reflexivity|].
  split; [rewrite Happ; subst s1; unfold phaseOf; simpl; reflexivity|].
  split; [rewrite Happ; reflexivity|].
  split; [rewrite Happ; subst s1; reflexivity|].
  split; [exact Hrun4|].
  simpl. rewrite Hrun4, Happ. reflexivity.
Qed.

End Outcomes.

(** ** Requests that are turned away *)

Section TurnedAway.
Context `{Common} `{Processors}.

Lemma handlerEntry_post (rt : route) (r : Request)
    (st : system * ResponseWriter) :
  Method r = MethodPost ->
  handlerEntry rt r st = validateShouldHandleRequest r st.
Proof.
  intros Hm. destruct rt; simpl; try reflexivity; rewrite Hm; reflexivity.
Qed.

Lemma arrive_while_busy (rt : route) (r : Request) (s : system) :
  uploading (app s) || processing (app s) = true ->
  Method r = MethodPost ->
  peerAccepted r (clientName (app s)) = true ->
  step (Arrive rt r) s
  = respond (writeHeader StatusServiceUnavailable newResponseWriter)
      (withApp (lockMutex (app s)) s).
Proof.
  intros Hbusy Hm Hpeer. cbn [step].
  rewrite handlerEntry_post by exact Hm.
  rewrite validate_reaches_phaseCheck by assumption.
  rewrite phaseCheck_eq, Hbusy. reflexivity.
Qed.

Lemma arrive_while_idle (rt : route) (r : Request) (s : system) :
  phaseOf (app s) = Idle ->
  Method r = MethodPost ->
  peerAccepted r (clientName (app s)) = true ->
  step (Arrive rt r) s
  = countAdmitted
      (withHandlers
         (handlers s ++
          [{| handlerRoute := rt; handlerRequest := r;
              handlerWriter := newResponseWriter |}])%list
         (withApp (setUploading true (lockMutex (app s))) s)).
Proof.
  intros Hidle Hm Hpeer. cbn [step].
  rewrite handlerEntry_post by exact Hm.
  rewrite validate_admits_idle by assumption. reflexivity.
Qed.

Lemma burst_while_uploading (name : string)
    (reqs : list (route * Request)) (s : system) :
  uploading (app s) = true ->
  clientName (app s) = name ->
  Forall (fun x => Method (snd x) = MethodPost
                   /\ peerAccepted (snd x) name = true) reqs ->
  admitted (exec (map (fun x => Arrive (fst x) (snd x)) reqs) s) = admitted s
  /\ handlers (exec (map (fun x => Arrive (fst x) (snd x)) reqs) s)
     = handlers s
  /\ session (app (exec (map (fun x => Arrive (fst x) (snd x)) reqs) s))
     = session (app s)
  /\ map responseStatus
       (responses (exec (map (fun x => Arrive (fst x) (snd x)) reqs) s))
     = (map responseStatus (responses s)
        ++ repeat StatusServiceUnavailable (length reqs))%list.
Proof.
  intros Hup Hname Hall. revert s Hup Hname.
  induction Hall as [|[rt r] reqs [Hm Hpeer] _ IH]; intros s Hup Hname.
  - simpl. rewrite app_nil_r. auto.
  - cbn [map exec fold_left fst snd].
    assert (Hstep : step (Arrive rt r) s
                    = respond (writeHeader StatusServiceUnavailable
                                 newResponseWriter)
                        (withApp (lockMutex (app s)) s)).
    { apply arrive_while_busy; [rewrite Hup; reflexivity | exact Hm|].
      rewrite Hname. exact Hpeer. }
    rewrite Hstep.
    specialize (IH (respond (writeHeader StatusServiceUnavailable
                               newResponseWriter)
                      (withApp (lockMutex (app s)) s)) Hup Hname).
    unfold exec in IH.
    destruct IH as (Ha & Hh & Hs & Hr).
    split; [exact Ha | split; [exact Hh | split; [exact Hs|]]].
    rewrite Hr. simpl. rewrite map_app. simpl.
    rewrite <- app_assoc. reflexivity.
Qed.

(** X11: of any number of POST requests that pass the peer check
    and reach their handlers on an idle session before any of them has
    finished, the first is admitted and every other one is answered 503;
    one handler more is in flight and the session is uploading. *)
Theorem one_admission_per_burst (s : system) (first : route * Request)
    (rest : list (route * Request)) :
  phaseOf (app s) = Idle ->
  Forall (fun x => Method (snd x) = MethodPost
                   /\ peerAccepted (snd x) (clientName (app s)) = true)
    (first :: rest) ->
  let s' := exec (map (fun x => Arrive (fst x) (snd x)) (first :: rest)) s in
  admitted s' = S (admitted s)
  /\ handlers s'
     = (handlers s ++
        [{| handlerRoute := fst first; handlerRequest := snd first;
            handlerWriter := newResponseWriter |}])%list
  /\ phaseOf (app s') = Uploading
  /\ map responseStatus (responses s')
     = (map responseStatus (responses s)
        ++ repeat StatusServiceUnavailable (length rest))%list.
Proof.
  intros Hidle Hall. inversion Hall as [|x l [Hm Hpeer] Hrest]; subst.
  destruct first as [rt r]. cbn [fst snd] in *.
  cbv zeta. cbn [map exec fold_left fst snd].
  rewrite arrive_while_idle by assumption.
  set (s1 := countAdmitted _).
  destruct (burst_while_uploading (clientName (app s)) rest s1)
    as (Ha & Hh & Hs & Hr); [reflexivity | reflexivity | exact Hrest|].
  unfold exec in Ha, Hh, Hs, Hr.
  split; [rewrite Ha; reflexivity|].
  split; [rewrite Hh; reflexivity|].
  split; [|rewrite Hr; reflexivity].
  unfold session in Hs. subst s1. simpl in Hs.
  injection Hs as Hu _ _ _. unfold phaseOf. rewrite Hu. reflexivity.
Qed.

(** X12: a request that is not a POST is answered 404 by every
    handler, with the process left as it was, except for HEAD on an
    asynchronous path; in particular HEAD on a synchronous or archive
    path is answered 404. *)
Theorem other_methods_answered_404 (rt : route) (r : Request) (s : system)
    (w : ResponseWriter) :
  Method r <> MethodPost ->
  (Method r <> MethodHead
   \/ rt = SyncUploadPath \/ rt = ArchiveUploadPath
   \/ rt = SyncUploadFormPath) ->
  ServeHTTP rt r (s, w) = (tt, (s, writeHeader StatusNotFound w)).
Proof.
  intros Hpost Hhead.
  assert (Hval : validateShouldHandleRequest r (s, w)
                 = (false, (s, writeHeader StatusNotFound w))).
  { apply validate_not_post.
    destruct (String.eqb_spec (Method r) MethodPost); [contradiction|].
    reflexivity. }
  rewrite ServeHTTP_entry_rest.
  assert (Hentry : handlerEntry rt r (s, w)
                   = (false, (s, writeHeader StatusNotFound w))).
  { destruct rt; simpl; try exact Hval;
      destruct (String.eqb_spec (Method r) MethodHead) as [Hh|_];
      try exact Hval;
      destruct Hhead as [Hne | [Hrt | [Hrt | Hrt]]];
      try contradiction; discriminate Hrt. }
  rewrite Hentry. reflexivity.
Qed.

(** X13: while the session is not idle, a request of any kind that
    reaches a handler leaves the session fields, the handlers in flight,
    the goroutines, [Run], the done channel and the counters as they
    were, and calls no processor function; it only gets its response. *)
Theorem busy_session_undisturbed (rt : route) (r : Request) (s : system) :
  phaseOf (app s) <> Idle ->
  session (app (step (Arrive rt r) s)) = session (app s)
  /\ handlers (step (Arrive rt r) s) = handlers s
  /\ goroutines (step (Arrive rt r) s) = goroutines s
  /\ run (step (Arrive rt r) s) = run s
  /\ doneChan (app (step (Arrive rt r) s)) = doneChan (app s)
  /\ admitted (step (Arrive rt r) s) = admitted s
  /\ failed (step (Arrive rt r) s) = failed s
  /\ processorCalls (step (Arrive rt r) s) = processorCalls s
  /\ length (responses (step (Arrive rt r) s)) = S (length (responses s)).
Proof.
  intros Hbusy. cbn [step].
  destruct (handlerEntry_cases rt r s newResponseWriter)
    as [[w' ->] | [[_ [w' ->]] | [Hidle _]]].
  - simpl. rewrite length_app. simpl.
    repeat split; try reflexivity. lia.
  - simpl. rewrite length_app. simpl.
    repeat split; try reflexivity. lia.
  - contradiction.
Qed.

End TurnedAway.

(** ** The channels over all interleavings *)

Lemma countIf_lookup (A : Type) (p : A -> bool) (l : list A) (i : nat)
    (x : A) :
  l !! i = Some x -> b2n (p x) <= countIf p l.
Proof.
  revert i. induction l as [|z l IH]; intros [|i] Hi; simpl in *;
    try discriminate.
  - injection Hi as ->. lia.
  - specialize (IH i Hi). lia.
Qed.

Lemma countIf_one_elsewhere (A : Type) (p : A -> bool) (l : list A)
    (i j : nat) (x y : A) :
  countIf p l <= 1 ->
  l !! i = Some x -> p x = true ->
  l !! j = Some y -> i <> j ->
  p y = false.
Proof.
  revert i j. induction l as [|z l IH]; intros [|i] [|j] Hc Hi Hx Hj Hne;
    simpl in *; try discriminate; try congruence.
  - injection Hi as ->. rewrite Hx in Hc. simpl in Hc.
    pose proof (countIf_lookup A p l j y Hj) as Hy.
    destruct (p y); [simpl in Hy; lia | reflexivity].
  - injection Hj as ->.
    pose proof (countIf_lookup A p l i x Hi) as Hx'. rewrite Hx in Hx'.
    simpl in Hx'. destruct (p y); [simpl in Hc; lia | reflexivity].
  - apply (IH i j); auto. lia.
Qed.

Section ChannelFacts.
Context `{Common} `{Processors}.

(** [Run] has returned nil only with the done channel closed. *)
Lemma nil_return_step (ev : event) (s : system) :
  (run s = Returned None -> 0 < doneChan (app s)) ->
  run (step ev s) = Returned None -> 0 < doneChan (app (step ev s)).
Proof.
  intros Hinv. destruct ev as [rt r|i|i| |err]; cbn [step].
  - destruct (handlerEntry_cases rt r s newResponseWriter)
      as [[w' ->] | [[_ [w' ->]] | [_ ->]]]; simpl; exact Hinv.
  - destruct (handlers s !! i) as [h|]; [|exact Hinv].
    destruct (handlerRest_cases (handlerRoute h) (handlerRequest h)
                (withHandlers (delete i (handlers s)) s) (handlerWriter h))
      as [(e & ap & w' & cs & ->) | [(ap & w' & cs & ->)
         | [(e & w' & cs & ->) | (p & w' & cs & ->)]]]; simpl;
      first [exact Hinv | intros; lia].
  - destruct (goroutines s !! i) as [g|]; [|exact Hinv].
    destruct g as [p|p e|p| |]; simpl.
    + destruct (ProcessDataResume p); simpl; exact Hinv.
    + destruct (run s) eqn:Hrun; simpl.
      * discriminate.
      * rewrite Hrun. exact Hinv.
    + exact Hinv.
    + intros _. lia.
    + exact Hinv.
  - destruct (run s) eqn:Hrun.
    + destruct (Nat.ltb_spec 0 (doneChan (app s))); simpl.
      * intros _. assumption.
      * rewrite Hrun. discriminate.
    + rewrite Hrun. exact Hinv.
  - destruct (run s) eqn:Hrun; simpl.
    + discriminate.
    + rewrite Hrun. exact Hinv.
Qed.

Lemma nil_return_exec (evs : list event) (s : system) :
  (run s = Returned None -> 0 < doneChan (app s)) ->
  run (exec evs s) = Returned None -> 0 < doneChan (app (exec evs s)).
Proof.
  revert s. induction evs as [|ev evs IH]; intros s Hinv.
  - exact Hinv.
  - cbn [exec fold_left]. apply IH. apply nil_return_step. exact Hinv.
Qed.

(** X14: in every state the process can reach, whatever the order
    of requests, handler returns and goroutine steps, [close] has run at
    most once on the done channel, so the second close that would panic
    never happens; the channel is closed only with [done] set; and [Run]
    has returned nil only with [done] set and the channel closed. *)
Theorem done_channel_closed_once_under_done (s : system) :
  reachable s ->
  doneChan (app s) <= 1
  /\ (0 < doneChan (app s) -> done (app s) = true)
  /\ (run s = Returned None ->
      done (app s) = true /\ doneChan (app s) = 1).
Proof.
  intros Hr.
  pose proof (reachable_invariant s Hr) as [_ _ Hc _ _].
  assert (Hle : doneChan (app s) <= 1)
    by (destruct (done (app s)); simpl in Hc; lia).
  assert (Hdone : 0 < doneChan (app s) -> done (app s) = true).
  { intros Hpos. destruct (done (app s)); [reflexivity|].
    simpl in Hc. lia. }
  split; [exact Hle | split; [exact Hdone|]].
  intros Hnil.
  destruct Hr as (dest & name & size & overhead & prealloc & evs & ->).
  assert (Hpos : 0 < doneChan (app (exec evs (startSystem
                   (NewUploadServer dest name size overhead prealloc))))).
  { apply nil_return_exec; [|exact Hnil]. simpl. discriminate. }
  split; [apply Hdone; exact Hpos | lia].
Qed.

(** A goroutine blocked in its send with [Run] gone, and every other
    event, leave the goroutines and [Run] as they are. *)
Lemma blocked_send_step (ev : event) (s : system) (i : nat)
    (p : DataProcessor) (err : error) :
  invariant s ->
  run s <> Selecting ->
  goroutines s !! i = Some (GoSendErr p err) ->
  goroutines (step ev s) = goroutines s /\ run (step ev s) = run s.
Proof.
  intros [Hh Hr Hc Hx Hn] Hrun Hi.
  pose proof (countIf_lookup _ resuming _ _ _ Hi) as Hpos. simpl in Hpos.
  assert (Hp : processing (app s) = true).
  { destruct (processing (app s)); [reflexivity|]. simpl in Hr. lia. }
  rewrite Hp in *. simpl in *.
  assert (Hu : uploading (app s) = false)
    by (destruct (uploading (app s)); [simpl in Hx; lia | reflexivity]).
  assert (Hd : done (app s) = false)
    by (destruct (done (app s)); [simpl in Hx; lia | reflexivity]).
  rewrite Hu, Hd in *. simpl in *.
  destruct ev as [rt r|j|j| |e]; cbn [step].
  - destruct (handlerEntry_cases rt r s newResponseWriter)
      as [[w' ->] | [[_ [w' ->]] | [Hidle _]]];
      [split; reflexivity | split; reflexivity|].
    apply phaseOf_Idle in Hidle as (_ & Hp' & _). congruence.
  - destruct (handlers s) as [|h hs]; [|simpl in Hh; lia].
    rewrite lookup_nil. split; reflexivity.
  - destruct (goroutines s !! j) as [g|] eqn:Hj; [|split; reflexivity].
    assert (Hstay : goStep g s = (g, s)).
    { destruct (Nat.eq_dec i j) as [<-|Hne].
      - rewrite Hi in Hj. injection Hj as <-. simpl.
        destruct (run s); [contradiction | reflexivity].
      - assert (Hg : resuming g = false).
        { apply (countIf_one_elsewhere _ resuming (goroutines s) i j
                   (GoSendErr p err) g); auto. lia. }
        destruct g as [q|q e|q| |]; try discriminate Hg.
        + pose proof (countIf_lookup _ closing _ _ _ Hj) as Hcl.
          simpl in Hcl. lia.
        + reflexivity. }
    rewrite Hstay. simpl. rewrite list_insert_id by exact Hj.
    split; reflexivity.
  - destruct (run s) eqn:E; [congruence | split; [reflexivity | exact E]].
  - destruct (run s) eqn:E; [congruence | split; [reflexivity | exact E]].
Qed.

(** X15: the error channel has no buffer and [Run] receives from
    it once.  When [Run] has already returned by the time the goroutine
    sends the error of [ProcessDataResume], the send never goes through:
    whatever happens next, the goroutine stays blocked, the session stays
    processing and never becomes done, and every POST that passes the
    peer check is answered 503. *)
Theorem blocked_send_keeps_processing (s : system) (i : nat)
    (p : DataProcessor) (err : error) (evs : list event) :
  reachable s ->
  run s <> Selecting ->
  goroutines s !! i = Some (GoSendErr p err) ->
  goroutines (exec evs s) !! i = Some (GoSendErr p err)
  /\ processing (app (exec evs s)) = true
  /\ done (app (exec evs s)) = false
  /\ doneChan (app (exec evs s)) = 0
  /\ (forall rt r,
        Method r = MethodPost ->
        peerAccepted r (clientName (app (exec evs s))) = true ->
        responseStatus (snd (serve rt r (exec evs s)))
        = StatusServiceUnavailable).
Proof.
  intros Hreach Hrun Hi.
  assert (Hkeep : invariant (exec evs s)
                  /\ goroutines (exec evs s) = goroutines s
                  /\ run (exec evs s) = run s).
  { pose proof (reachable_invariant s Hreach) as Hinv.
    clear Hreach. revert s Hinv Hrun Hi.
    induction evs as [|ev evs IH]; intros s Hinv Hrun Hi.
    - split; [exact Hinv | split; reflexivity].
    - cbn [exec fold_left].
      destruct (blocked_send_step ev s i p err Hinv Hrun Hi) as [Hg Hr].
      destruct (IH (step ev s)) as (Hinv' & Hg' & Hr').
      + apply invariant_step. exact Hinv.
      + rewrite Hr. exact Hrun.
      + rewrite Hg. exact Hi.
      + unfold exec in *. split; [exact Hinv'|].
        split; [rewrite Hg', Hg; reflexivity
               | rewrite Hr', Hr; reflexivity]. }
  destruct Hkeep as ([Hh Hr Hc Hx Hn] & Hg & _).
  rewrite Hg.
  pose proof (countIf_lookup _ resuming _ _ _ Hi) as Hpos. simpl in Hpos.
  rewrite Hg in Hr.
  assert (Hp : processing (app (exec evs s)) = true).
  { destruct (processing (app (exec evs s))); [reflexivity|].
    simpl in Hr. lia. }
  rewrite Hp in *. simpl in *.
  assert (Hd : done (app (exec evs s)) = false).
  { destruct (done (app (exec evs s))); [simpl in Hx; lia | reflexivity]. }
  rewrite Hd in *. simpl in *.
  split; [exact Hi|]. split; [reflexivity|]. split; [reflexivity|].
  split; [lia|].
  intros rt r Hm Hpeer. unfold serve. rewrite ServeHTTP_entry_rest.
  rewrite handlerEntry_post by exact Hm.
  rewrite validate_reaches_phaseCheck by assumption.
  rewrite phaseCheck_eq, Hp, orb_true_r. reflexivity.
Qed.

End ChannelFacts.

(** ** The processor functions *)

Section AdapterFacts.
Context `{Common} `{Importer}.

(** X16: with the processor functions of the file, a POST on an
    asynchronous path that announces a filesystem clone is admitted and
    then refused without the importer or the stream being used: the
    client gets 500 (the error is not a size validation error) with the
    body "Saving stream failed: async filesystem clone not supported",
    the session is idle again and no goroutine is started. *)
Theorem async_filesystem_clone_answered_500 (irc : imageReadCloser)
    (r : Request) (s : system) (fs : filesystem) :
  Method r = MethodPost ->
  peerAccepted r (clientName (app s)) = true ->
  phaseOf (app s) = Idle ->
  snd (irc r) = None ->
  HeaderGet (RequestHeader r) UploadContentTypeHeader
  = FilesystemCloneContentType ->
  let st := snd (uploadHandlerAsync (H0 := defaultProcessors fs) irc r
                   (s, newResponseWriter)) in
  headerCalls (snd st) = [StatusInternalServerError]
  /\ bodyText (snd st)
     = "Saving stream failed: async filesystem clone not supported"
  /\ phaseOf (app (fst st)) = Idle
  /\ goroutines (fst st) = goroutines s
  /\ snd (newAsyncUploadStreamProcessor (fst (irc r)) (destination (app s))
            (imageSize (app s)) (filesystemOverhead (app s))
            (preallocation (app s)) FilesystemCloneContentType fs) = fs.
Proof.
  intros Hm Hpeer Hidle Hirc Hheader.
  assert (Hnew : forall stream dest size overhead prealloc,
            newAsyncUploadStreamProcessor stream dest size overhead prealloc
              FilesystemCloneContentType fs
            = ((None, Some (ErrorString
                              "async filesystem clone not supported")), fs)).
  { intros. unfold newAsyncUploadStreamProcessor.
    rewrite String.eqb_refl. reflexivity. }
  cbv zeta.
  rewrite (uploadHandlerAsync_admitted (H0 := defaultProcessors fs))
    by assumption.
  rewrite (uploadHandlerAsyncAdmitted_eq (H0 := defaultProcessors fs)).
  rewrite Hirc, Hheader. simpl. rewrite !Hnew. simpl.
  apply phaseOf_Idle in Hidle as (Hu & Hp & Hd).
  repeat split.
  unfold phaseOf. simpl. rewrite Hp, Hd. reflexivity.
Qed.

(** X17: a filesystem clone sent to the block device path goes
    through the snappy reader, the tar reader and [untarToBlockdev]:
    when the archive so read has a first regular or sparse entry with
    the disk image name, complete, and the device exists,
    [newUploadStreamProcessor] appends the [Size] bytes of that entry to
    the device and returns no error and no preallocation; the
    synchronous handler then answers 200 and the session is done. *)
Theorem filesystem_clone_to_block_device (r : Request) (s : system)
    (pre post : list (option Header * list byte)) (header : Header)
    (payload : list byte) (last : error) (fs : filesystem)
    (old : list byte) :
  tarNewReader (newSnappyReadCloser (BodyReader (Body r)))
  = {| tarEntries := (pre ++ (Some header, payload) :: post)%list;
       tarEnd := last |} ->
  forallb passedOver pre = true ->
  Contains (Name header) DiskImageName = true ->
  isRegOrSparse (Typeflag header) = true ->
  fs !! WriteBlockPath = Some old ->
  (0 <= Size header <= Z.of_nat (length payload))%Z ->
  (forall size overhead prealloc dv,
     newUploadStreamProcessor (BodyReader (Body r)) WriteBlockPath size
       overhead prealloc FilesystemCloneContentType dv fs
     = ((false, None),
        <[WriteBlockPath :=
            (old ++ take (Z.to_nat (Size header)) payload)%list]> fs))
  /\ (Method r = MethodPost ->
      peerAccepted r (clientName (app s)) = true ->
      phaseOf (app s) = Idle ->
      destination (app s) = WriteBlockPath ->
      HeaderGet (RequestHeader r) UploadContentTypeHeader
      = FilesystemCloneContentType ->
      responseStatus
        (snd (serve (H0 := defaultProcessors fs) SyncUploadPath r s))
      = StatusOK
      /\ phaseOf
           (app (fst (serve (H0 := defaultProcessors fs) SyncUploadPath r s)))
         = Done
      /\ preallocationApplied
           (app (fst (serve (H0 := defaultProcessors fs) SyncUploadPath r s)))
         = false).
Proof.
  intros Htar Hpre Hname Htype Hdest Hsize.
  assert (Hnew : forall size overhead prealloc dv,
     newUploadStreamProcessor (BodyReader (Body r)) WriteBlockPath size
       overhead prealloc FilesystemCloneContentType dv fs
     = ((false, None),
        <[WriteBlockPath :=
            (old ++ take (Z.to_nat (Size header)) payload)%list]> fs)).
  { intros. unfold newUploadStreamProcessor, filesystemCloneProcessor.
    rewrite !String.eqb_refl. rewrite Htar.
    unfold untarToBlockdev. cbn [tarEntries tarEnd].
    rewrite untarLoop_at_match by assumption. rewrite Hdest.
    destruct (CopyN_within payload (entryEnd (Size header) payload)
                (Size header) Hsize) as [-> _].
    reflexivity. }
  split; [exact Hnew|].
  intros Hm Hpeer Hidle Hblock Hheader.
  unfold serve, ServeHTTP, uploadHandler.
  rewrite (processUpload_admitted (H0 := defaultProcessors fs))
    by assumption.
  rewrite (processUploadAdmitted_eq (H0 := defaultProcessors fs)).
  simpl. rewrite Hblock, Hheader, Hnew. simpl.
  apply phaseOf_Idle in Hidle as (Hu & Hp & Hd).
  repeat split.
  unfold phaseOf. simpl. rewrite Hp. reflexivity.
Qed.

End AdapterFacts.

(** ** The TLS material of the listener *)

Section TransportFacts.
Context `{Platform}.

Lemma writeTLSMaterial_without_pair (t : transport) (fs : filesystem) :
  tlsKey t = "" \/ tlsCert t = "" ->
  writeTLSMaterial t fs = (None, t, fs).
Proof.
  intros Hempty. unfold writeTLSMaterial.
  destruct Hempty as [-> | ->]; simpl; [reflexivity|].
  rewrite andb_false_r. reflexivity.
Qed.

(** X18: for a server made by [NewUploadServer], once
    [createUploadServer] has returned a server, the listener goroutine
    serves TLS exactly when both the key and the certificate were given
    (a joined path with a non-empty last element being non-empty).  With
    either of them empty no directory is made, no file is written, the
    key and certificate file names stay empty and the listener serves
    plain HTTP. *)
Theorem tls_served_exactly_with_key_and_cert (key cert client : string)
    (crypto : CryptoConfig) (fs fs' : filesystem) (t' : transport)
    (server : httpServer) :
  (forall dir name, name <> "" -> filepathJoin dir name <> "") ->
  createUploadServer (newTransport key cert client crypto) fs
  = (Created server, t', fs') ->
  (key <> "" /\ cert <> ""
   /\ listenerServe t' = ServeTLS (certFile t') (keyFile t'))
  \/ ((key = "" \/ cert = "")
      /\ listenerServe t' = Serve
      /\ t' = newTransport key cert client crypto
      /\ fs' = fs).
Proof.
  intros Hjoin Hcreate.
  destruct (String.eqb_spec key "") as [Hk|Hk];
    [|destruct (String.eqb_spec cert "") as [Hc|Hc]].
  - right. unfold createUploadServer in Hcreate.
    rewrite writeTLSMaterial_without_pair in Hcreate by (left; exact Hk).
    assert (Hsame : t' = newTransport key cert client crypto /\ fs' = fs).
    { destruct (negb (clientCert (newTransport key cert client crypto) =? ""));
        [destruct (AppendCertsFromPEM _)|]; inversion Hcreate; auto. }
    destruct Hsame as [-> ->].
    split; [left; exact Hk|]. split; [reflexivity | auto].
  - right. unfold createUploadServer in Hcreate.
    rewrite writeTLSMaterial_without_pair in Hcreate by (right; exact Hc).
    assert (Hsame : t' = newTransport key cert client crypto /\ fs' = fs).
    { destruct (negb (clientCert (newTransport key cert client crypto) =? ""));
        [destruct (AppendCertsFromPEM _)|]; inversion Hcreate; auto. }
    destruct Hsame as [-> ->].
    split; [right; exact Hc|]. split; [reflexivity | auto].
  - left. split; [exact Hk | split; [exact Hc|]].
    unfold createUploadServer, writeTLSMaterial in Hcreate.
    simpl in Hcreate.
    apply String.eqb_neq in Hk, Hc. rewrite Hk, Hc in Hcreate.
    simpl in Hcreate.
    destruct (MkdirTemp "" "uploadserver-tls" fs) as [e|dir];
      [discriminate Hcreate|].
    assert (Hfiles : keyFile t' = filepathJoin dir "tls.key"
                     /\ certFile t' = filepathJoin dir "tls.crt").
    { unfold WriteFile in Hcreate.
      destruct (writeFileError (filepathJoin dir "tls.key") fs);
        [discriminate Hcreate|].
      destruct (writeFileError (filepathJoin dir "tls.crt") _);
        [discriminate Hcreate|].
      simpl in Hcreate.
      destruct (negb (client =? "")); [destruct (AppendCertsFromPEM _)|];
        inversion Hcreate; subst; simpl; auto. }
    destruct Hfiles as [Hkf Hcf]. unfold listenerServe.
    assert (Hk' : String.eqb (keyFile t') "" = false).
    { apply String.eqb_neq. rewrite Hkf. apply Hjoin. discriminate. }
    assert (Hc' : String.eqb (certFile t') "" = false).
    { apply String.eqb_neq. rewrite Hcf. apply Hjoin. discriminate. }
    rewrite Hk', Hc'. reflexivity.
Qed.

(** X19: with a key and a certificate, a temporary directory and
    both writes succeeding, [createUploadServer] leaves the key under
    "tls.key" and the certificate under "tls.crt" in that directory:
    reading either file back gives the configured text, every other file
    is as it was, and the listener serves TLS from these two files. *)
Theorem tls_material_written_and_read_back (key cert client : string)
    (crypto : CryptoConfig) (fs : filesystem) (dir : string) :
  key <> "" ->
  cert <> "" ->
  MkdirTemp "" "uploadserver-tls" fs = inr dir ->
  writeFileError (filepathJoin dir "tls.key") fs = None ->
  writeFileError (filepathJoin dir "tls.crt")
    (<[filepathJoin dir "tls.key" := list_byte_of_string key]> fs) = None ->
  filepathJoin dir "tls.key" <> filepathJoin dir "tls.crt" ->
  filepathJoin dir "tls.key" <> "" ->
  filepathJoin dir "tls.crt" <> "" ->
  let result := createUploadServer (newTransport key cert client crypto) fs in
  keyFile (snd (fst result)) = filepathJoin dir "tls.key"
  /\ certFile (snd (fst result)) = filepathJoin dir "tls.crt"
  /\ string_of_list_byte <$> snd result !! filepathJoin dir "tls.key"
     = Some key
  /\ string_of_list_byte <$> snd result !! filepathJoin dir "tls.crt"
     = Some cert
  /\ (forall path,
        path <> filepathJoin dir "tls.key" ->
        path <> filepathJoin dir "tls.crt" ->
        snd result !! path = fs !! path)
  /\ listenerServe (snd (fst result))
     = ServeTLS (filepathJoin dir "tls.crt") (filepathJoin dir "tls.key").
Proof.
  intros Hk Hc Hdir Hwk Hwc Hne Hkne Hcne.
  assert (Hwrite :
    writeTLSMaterial (newTransport key cert client crypto) fs
    = (None,
       {| tlsKey := key; tlsCert := cert; clientCert := client;
          cryptoConfig := crypto;
          keyFile := filepathJoin dir "tls.key";
          certFile := filepathJoin dir "tls.crt" |},
       <[filepathJoin dir "tls.crt" := list_byte_of_string cert]>
         (<[filepathJoin dir "tls.key" := list_byte_of_string key]> fs))).
  { unfold writeTLSMaterial. simpl.
    apply String.eqb_neq in Hk, Hc. rewrite Hk, Hc. simpl.
    rewrite Hdir. unfold WriteFile. simpl. rewrite Hwk, Hwc. reflexivity. }
  assert (Hresult :
    let result := createUploadServer (newTransport key cert client crypto) fs
    in snd (fst result)
       = {| tlsKey := key; tlsCert := cert; clientCert := client;
            cryptoConfig := crypto;
            keyFile := filepathJoin dir "tls.key";
            certFile := filepathJoin dir "tls.crt" |}
       /\ snd result
          = <[filepathJoin dir "tls.crt" := list_byte_of_string cert]>
              (<[filepathJoin dir "tls.key" := list_byte_of_string key]> fs)).
  { cbv zeta. unfold createUploadServer. rewrite Hwrite. simpl.
    destruct (negb (client =? "")); [destruct (AppendCertsFromPEM client)|];
      split; reflexivity. }
  cbv zeta in *. destruct Hresult as [-> ->]. simpl.
  unfold filesystem in *.
  split; [reflexivity|]. split; [reflexivity|]. split; [|split; [|split]].
  - rewrite lookup_insert_ne by (intros Heq; apply Hne; symmetry; exact Heq).
    rewrite lookup_insert_eq. simpl.
    rewrite string_of_list_byte_of_string. reflexivity.
  - rewrite lookup_insert_eq. simpl.
    rewrite string_of_list_byte_of_string. reflexivity.
  - intros path Hpk Hpc.
    rewrite lookup_insert_ne by (intros Heq; apply Hpc; symmetry; exact Heq).
    rewrite lookup_insert_ne by (intros Heq; apply Hpk; symmetry; exact Heq).
    reflexivity.
  - unfold listenerServe. simpl.
    apply String.eqb_neq in Hkne, Hcne. rewrite Hkne, Hcne. reflexivity.
Qed.

(** X20: a client CA bundle without a server key (or without a
    server certificate): [createUploadServer] succeeds with a TLS
    configuration that requires and verifies client certificates, writes
    nothing, and the listener goroutine nevertheless calls [Serve], not
    [ServeTLS]. *)
Theorem client_ca_without_server_pair_serves_plain (key cert client : string)
    (crypto : CryptoConfig) (fs : filesystem) :
  key = "" \/ cert = "" ->
  client <> "" ->
  AppendCertsFromPEM client = true ->
  createUploadServer (newTransport key cert client crypto) fs
  = (Created
       {| TLSConfig :=
            Some {| configCipherSuites := CipherSuites crypto;
                    ClientCAs := client;
                    ClientAuth := RequireAndVerifyClientCert;
                    configMinVersion := MinVersion crypto |} |},
     newTransport key cert client crypto, fs)
  /\ listenerServe (newTransport key cert client crypto) = Serve.
Proof.
  intros Hempty Hclient Hpem. split.
  - unfold createUploadServer.
    rewrite writeTLSMaterial_without_pair by exact Hempty.
    simpl. apply String.eqb_neq in Hclient. rewrite Hclient. simpl.
    rewrite Hpem. reflexivity.
  - reflexivity.
Qed.

(** X21: when the key file has been written and the write of the
    certificate file fails, [createUploadServer] returns that error
    under "Error creating cert file" and leaves the key file, with the
    key in it, in the temporary directory; the certificate file is
    either as it was before (it could not be opened) or holds the first
    bytes of the certificate (it was created and truncated, and the write
    stopped); no other file changes, and the client CA bundle is not
    looked at. *)
Theorem cert_write_failure_leaves_key_file (key cert client : string)
    (crypto : CryptoConfig) (fs : filesystem) (dir : string) (e : error) :
  key <> "" ->
  cert <> "" ->
  MkdirTemp "" "uploadserver-tls" fs = inr dir ->
  writeFileError (filepathJoin dir "tls.key") fs = None ->
  writeFileError (filepathJoin dir "tls.crt")
    (<[filepathJoin dir "tls.key" := list_byte_of_string key]> fs) = Some e ->
  filepathJoin dir "tls.key" <> filepathJoin dir "tls.crt" ->
  fst (fst (createUploadServer (newTransport key cert client crypto) fs))
  = CreateFailed (Wrapf e "Error creating cert file")
  /\ snd (createUploadServer (newTransport key cert client crypto) fs)
       !! filepathJoin dir "tls.key"
     = Some (list_byte_of_string key)
  /\ (forall path,
        path <> filepathJoin dir "tls.key" ->
        path <> filepathJoin dir "tls.crt" ->
        snd (createUploadServer (newTransport key cert client crypto) fs)
          !! path
        = fs !! path)
  /\ (snd (createUploadServer (newTransport key cert client crypto) fs)
        !! filepathJoin dir "tls.crt"
      = fs !! filepathJoin dir "tls.crt"
      \/ exists written,
           snd (createUploadServer (newTransport key cert client crypto) fs)
             !! filepathJoin dir "tls.crt"
           = Some (take written (list_byte_of_string cert))).
Proof.
  intros Hk Hc Hdir Hwk Hwc Hne.
  assert (Hcreate :
    createUploadServer (newTransport key cert client crypto) fs
    = (CreateFailed (Wrapf e "Error creating cert file"),
       {| tlsKey := key; tlsCert := cert; clientCert := client;
          cryptoConfig := crypto;
          keyFile := filepathJoin dir "tls.key";
          certFile := filepathJoin dir "tls.crt" |},
       match writeFileWritten (filepathJoin dir "tls.crt")
               (list_byte_of_string cert)
               (<[filepathJoin dir "tls.key" := list_byte_of_string key]> fs)
       with
       | None => <[filepathJoin dir "tls.key" := list_byte_of_string key]> fs
       | Some written =>
           <[filepathJoin dir "tls.crt" :=
               take written (list_byte_of_string cert)]>
             (<[filepathJoin dir "tls.key" := list_byte_of_string key]> fs)
       end)).
  { unfold createUploadServer, writeTLSMaterial. simpl.
    apply String.eqb_neq in Hk, Hc. rewrite Hk, Hc. simpl.
    rewrite Hdir. unfold WriteFile. simpl. rewrite Hwk, Hwc.
    destruct (writeFileWritten _ _ _); reflexivity. }
  rewrite Hcreate. cbn [fst snd]. unfold filesystem in *.
  split; [reflexivity|].
  destruct (writeFileWritten _ _ _) as [written|].
  - split; [|split].
    + rewrite lookup_insert_ne by (intros Heq; apply Hne; symmetry; exact Heq).
      apply lookup_insert_eq.
    + intros path Hpk Hpc.
      rewrite lookup_insert_ne by (intros Heq; apply Hpc; symmetry; exact Heq).
      rewrite lookup_insert_ne by (intros Heq; apply Hpk; symmetry; exact Heq).
      reflexivity.
    + right. exists written. apply lookup_insert_eq.
  - split; [|split].
    + apply lookup_insert_eq.
    + intros path Hpk _.
      rewrite lookup_insert_ne by (intros Heq; apply Hpk; symmetry; exact Heq).
      reflexivity.
    + left.
      rewrite lookup_insert_ne by exact Hne. reflexivity.
Qed.

End TransportFacts.

(** ** The further properties on the sample values *)

Lemma sync_upload_success_sample :
  phaseOf (app (fst (snd (@processUpload sampleCommon succeedingProcessors
                            bodyReadCloser plainPost DataVolumeKubeVirt
                            (startSystem sampleServer, newResponseWriter)))))
  = Done.
Proof.
  pose proof (@sync_upload_success sampleCommon succeedingProcessors
                bodyReadCloser plainPost DataVolumeKubeVirt
                (startSystem sampleServer) false
                eq_refl eq_refl eq_refl eq_refl eq_refl eq_refl)
    as (_ & _ & Hdone & _).
  exact Hdone.
Defined.

Lemma sync_upload_failure_sample :
  headerCalls (snd (snd (@processUpload sampleCommon failingProcessors
                           bodyReadCloser plainPost DataVolumeKubeVirt
                           (startSystem sampleServer, newResponseWriter))))
  = [StatusInternalServerError].
Proof.
  pose proof (@sync_upload_failure sampleCommon failingProcessors
                bodyReadCloser plainPost DataVolumeKubeVirt
                (startSystem sampleServer) false
                (ErrorString "no space left on device")
                eq_refl eq_refl eq_refl eq_refl eq_refl)
    as (Hcalls & _).
  exact Hcalls.
Defined.

Lemma async_upload_rejected_at_start_sample :
  bodyText (snd (snd (@uploadHandlerAsync sampleCommon sizeErrorProcessors
                        bodyReadCloser plainPost
                        (startSystem sampleServer, newResponseWriter))))
  = "Saving stream failed: image larger than volume".
Proof.
  pose proof (@async_upload_rejected_at_start sampleCommon
                sizeErrorProcessors bodyReadCloser plainPost
                (startSystem sampleServer) (pausedProcessor None)
                (ValidationSizeError "image larger than volume")
                eq_refl eq_refl eq_refl eq_refl eq_refl)
    as (_ & Hbody & _).
  exact Hbody.
Defined.

Lemma async_upload_success_sample :
  run (@step sampleCommon succeedingProcessors SelectDone
         (@exec sampleCommon succeedingProcessors
            [Background 0; Background 0; Background 0]
            (fst (snd (@uploadHandlerAsync sampleCommon succeedingProcessors
                         bodyReadCloser plainPost
                         (startSystem sampleServer, newResponseWriter))))))
  = Returned None.
Proof.
  pose proof (@async_upload_success sampleCommon succeedingProcessors
                bodyReadCloser plainPost (startSystem sampleServer)
                (pausedProcessor None)
                eq_refl eq_refl eq_refl eq_refl eq_refl eq_refl eq_refl)
    as (_ & _ & _ & _ & _ & _ & _ & _ & Hnil).
  exact Hnil.
Defined.

Lemma one_admission_per_burst_sample :
  admitted (@exec sampleCommon succeedingProcessors
              [Arrive SyncUploadPath plainPost;
               Arrive AsyncUploadPath plainPost;
               Arrive ArchiveUploadPath plainPost]
              (startSystem sampleServer)) = 1.
Proof.
  pose proof (@one_admission_per_burst sampleCommon succeedingProcessors
                (startSystem sampleServer) (SyncUploadPath, plainPost)
                [(AsyncUploadPath, plainPost); (ArchiveUploadPath, plainPost)]
                eq_refl
                ltac:(repeat (constructor; [split; reflexivity|]);
                      constructor))
    as (Hadmitted & _).
  exact Hadmitted.
Defined.

Lemma other_methods_answered_404_sample :
  @ServeHTTP sampleCommon succeedingProcessors SyncUploadPath plainHead
    (afterUpload, newResponseWriter)
  = (tt, (afterUpload, writeHeader StatusNotFound newResponseWriter)).
Proof.
  apply (@other_methods_answered_404 sampleCommon succeedingProcessors
           SyncUploadPath plainHead afterUpload newResponseWriter).
  - simpl. discriminate.
  - right. left. reflexivity.
Defined.

Lemma busy_session_undisturbed_sample :
  session (app (@step sampleCommon succeedingProcessors
                  (Arrive AsyncUploadPath plainPost) afterUpload))
  = session (app afterUpload).
Proof.
  apply (proj1 (@busy_session_undisturbed sampleCommon succeedingProcessors
                  AsyncUploadPath plainPost afterUpload
                  ltac:(vm_compute; discriminate))).
Defined.

Lemma done_channel_closed_once_under_done_sample :
  doneChan (app afterUpload) <= 1.
Proof.
  apply (proj1 (@done_channel_closed_once_under_done sampleCommon
                  succeedingProcessors afterUpload
                  sample_reachable_afterUpload)).
Defined.

Lemma sample_reachable_afterListenerFailed :
  @reachable sampleCommon resumeFailingProcessors afterListenerFailed.
Proof.
  exists "/dev/cdi-block-volume", "client-A", "1Gi", 0.5%float, false,
    [Arrive AsyncUploadPath plainPost; Proceed 0;
     ListenerError (ErrorString "accept: closed"); Background 0].
  reflexivity.
Defined.

Lemma blocked_send_keeps_processing_sample :
  processing (app (@exec sampleCommon resumeFailingProcessors
                     [Background 0; Arrive SyncUploadPath plainPost;
                      SelectDone; Background 0]
                     afterListenerFailed)) = true.
Proof.
  pose proof (@blocked_send_keeps_processing sampleCommon
                resumeFailingProcessors afterListenerFailed 0
                (pausedProcessor (Some (ErrorString "unexpected EOF")))
                (ErrorString "unexpected EOF")
                [Background 0; Arrive SyncUploadPath plainPost;
                 SelectDone; Background 0]
                sample_reachable_afterListenerFailed
                ltac:(vm_compute; discriminate)
                eq_refl)
    as (_ & Hprocessing & _).
  exact Hprocessing.
Defined.

Lemma async_filesystem_clone_answered_500_sample :
  headerCalls
    (snd (snd (@uploadHandlerAsync sampleCommon
                 (@defaultProcessors sampleCommon sampleImporter sampleDisk)
                 bodyReadCloser filesystemClonePost
                 (startSystem sampleServer, newResponseWriter))))
  = [StatusInternalServerError].
Proof.
  pose proof (@async_filesystem_clone_answered_500 sampleCommon
                sampleImporter bodyReadCloser filesystemClonePost
                (startSystem sampleServer) sampleDisk
                eq_refl eq_refl eq_refl eq_refl eq_refl)
    as (Hcalls & _).
  exact Hcalls.
Defined.

Lemma filesystem_clone_to_block_device_sample :
  @newUploadStreamProcessor sampleCommon sampleImporter
    (BodyReader (Body filesystemClonePost)) "/dev/cdi-block-volume" "1Gi"
    0.5%float false "filesystem-clone" DataVolumeKubeVirt sampleDisk
  = ((false, None),
     <["/dev/cdi-block-volume" := [x00; x01; x02; x03]]> sampleDisk).
Proof.
  apply (proj1 (@filesystem_clone_to_block_device sampleCommon
                  sampleImporter filesystemClonePost
                  (startSystem sampleServer)
                  [(Some {| Name := "metadata.json"; Typeflag := TypeReg;
                            Size := 2 |}, [x7b; x7d])]
                  [(Some {| Name := "disk.img.bak"; Typeflag := TypeReg;
                            Size := 2 |}, [x09; x09])]
                  {| Name := "disk.img"; Typeflag := TypeReg; Size := 3 |}
                  [x01; x02; x03] EOF sampleDisk [x00]
                  eq_refl eq_refl eq_refl eq_refl eq_refl
                  ltac:(simpl; lia))).
Defined.

Lemma samplePlatform_join_nonempty (dir name : string) :
  name <> "" -> @filepathJoin samplePlatform dir name <> "".
Proof.
  intros _. simpl. destruct dir; simpl; discriminate.
Defined.

Lemma tls_served_exactly_with_key_and_cert_sample :
  ("KEY" <> "" /\ "CERT" <> ""
   /\ listenerServe
        {| tlsKey := "KEY"; tlsCert := "CERT"; clientCert := "CA";
           cryptoConfig := sampleCrypto;
           keyFile := "/tmp/uploadserver-tls1/tls.key";
           certFile := "/tmp/uploadserver-tls1/tls.crt" |}
      = ServeTLS "/tmp/uploadserver-tls1/tls.crt"
          "/tmp/uploadserver-tls1/tls.key")
  \/ (("KEY" = "" \/ "CERT" = "")
      /\ listenerServe
           {| tlsKey := "KEY"; tlsCert := "CERT"; clientCert := "CA";
              cryptoConfig := sampleCrypto;
              keyFile := "/tmp/uploadserver-tls1/tls.key";
              certFile := "/tmp/uploadserver-tls1/tls.crt" |}
         = Serve
      /\ {| tlsKey := "KEY"; tlsCert := "CERT"; clientCert := "CA";
            cryptoConfig := sampleCrypto;
            keyFile := "/tmp/uploadserver-tls1/tls.key";
            certFile := "/tmp/uploadserver-tls1/tls.crt" |}
         = newTransport "KEY" "CERT" "CA" sampleCrypto
      /\ <["/tmp/uploadserver-tls1/tls.crt" := list_byte_of_string "CERT"]>
           (<["/tmp/uploadserver-tls1/tls.key" := list_byte_of_string "KEY"]>
              sampleDisk)
         = sampleDisk).
Proof.
  apply (@tls_served_exactly_with_key_and_cert samplePlatform
           "KEY" "CERT" "CA" sampleCrypto sampleDisk
           (<["/tmp/uploadserver-tls1/tls.crt" := list_byte_of_string "CERT"]>
              (<["/tmp/uploadserver-tls1/tls.key" :=
                   list_byte_of_string "KEY"]> sampleDisk))
           {| tlsKey := "KEY"; tlsCert := "CERT"; clientCert := "CA";
              cryptoConfig := sampleCrypto;
              keyFile := "/tmp/uploadserver-tls1/tls.key";
              certFile := "/tmp/uploadserver-tls1/tls.crt" |}
           {| TLSConfig :=
                Some {| configCipherSuites := [4865%Z]; ClientCAs := "CA";
                        ClientAuth := RequireAndVerifyClientCert;
                        configMinVersion := 771%Z |} |}
           samplePlatform_join_nonempty).
  reflexivity.
Defined.

Lemma tls_material_written_and_read_back_sample :
  string_of_list_byte <$>
    snd (@createUploadServer samplePlatform sampleTransport sampleDisk)
      !! "/tmp/uploadserver-tls1/tls.key"
  = Some "KEY".
Proof.
  pose proof (@tls_material_written_and_read_back samplePlatform
                "KEY" "CERT" "CA" sampleCrypto sampleDisk
                "/tmp/uploadserver-tls1"
                ltac:(discriminate) ltac:(discriminate)
                eq_refl eq_refl eq_refl
                ltac:(simpl; discriminate) ltac:(simpl; discriminate)
                ltac:(simpl; discriminate))
    as (_ & _ & Hkey & _).
  exact Hkey.
Defined.

Lemma client_ca_without_server_pair_serves_plain_sample :
  listenerServe (newTransport "" "" "CA" sampleCrypto) = Serve.
Proof.
  apply (proj2 (@client_ca_without_server_pair_serves_plain samplePlatform
                  "" "" "CA" sampleCrypto sampleDisk
                  (or_introl eq_refl) ltac:(discriminate) eq_refl)).
Defined.

Lemma cert_write_failure_leaves_key_file_sample :
  fst (fst (@createUploadServer readOnlyCertPlatform sampleTransport
              sampleDisk))
  = CreateFailed (Wrapf (ErrorString "no space left on device")
                    "Error creating cert file")
  /\ snd (@createUploadServer readOnlyCertPlatform sampleTransport sampleDisk)
       !! "/tmp/uploadserver-tls1/tls.key"
     = Some (list_byte_of_string "KEY").
Proof.
  pose proof (@cert_write_failure_leaves_key_file
                readOnlyCertPlatform "KEY" "CERT" "CA" sampleCrypto
                sampleDisk "/tmp/uploadserver-tls1"
                (ErrorString "no space left on device")
                ltac:(discriminate) ltac:(discriminate)
                eq_refl eq_refl eq_refl ltac:(simpl; discriminate))
    as (Hfailed & Hkey & _).
  split; [exact Hfailed | exact Hkey].
Defined.
